(** * DocumentSplitter (haystack/nodes/preprocessor/splitter.py)

    A shallow embedding of the document splitter and of the helpers it
    calls, with the properties of its specification stated over it.

    Python [str] values that are cut, measured and joined are lists of
    characters; keys, mode names and messages are [string]s; Python [int]s
    are [Z]; a [dict] is a [gmap]; code that logs or raises runs in a small
    writer-and-error monad [M]. *)

From Stdlib Require Import ZArith Ascii String.
From stdpp Require Import base option list list_numbers strings gmap.

Local Open Scope Z_scope.

(** ** Text *)

Definition str := list ascii.

Definition py (s : string) : str := list_ascii_of_string s.

(** [len(s)] as a Python integer. *)
Definition len {A} (l : list A) : Z := Z.of_nat (length l).

Definition form_feed : ascii := "012"%char.
Definition newline : ascii := "010"%char.
Definition space : ascii := " "%char.

(** [sep.join(parts)] *)
Fixpoint join (sep : str) (parts : list str) : str :=
  match parts with
  | [] => []
  | [p] => p
  | p :: ps => p ++ sep ++ join sep ps
  end.

(** ** Documents and their metadata *)

(** An entry of [meta["headlines"]]: [{"text": ..., "start_idx": ...}]. *)
Record Headline := { h_text : str; start_idx : Z }.

Inductive MetaValue :=
| MInt (z : Z)
| MStr (s : str)
| MHeadlines (hs : list Headline).

Record Document := {
  content : str;
  content_type : string;
  meta : gmap string MetaValue;
  id_hash_keys : option (list string);
}.

(** ** Exceptions, log records and the monad *)

(** The exceptions the splitter raises, with their messages. *)
Inductive Exc :=
| ValueError (msg : string)
| TypeError (msg : string)
| IndexError (msg : string).

(** What is logged: the warnings of [_validate_split_params] and of
    [split], and the two diagnostics of the unit validation (section 4.2 of
    the specification), at error level. *)
Inductive LogRecord :=
| WarnSplitLengthZero (max_chars : Z)
| WarnRegexIgnored (split_by : string)
| WarnSeparatorsIgnored (split_by : string)
| WarnEmptyDocument (d : Document)
| ErrorUnitTooLong (unit_text : str) (max_chars : Z)
| ErrorUnitTooManyTokens (unit_text : str) (n_tokens : nat) (max_tokens : Z).

(** The records written while one document is being processed (the others
    come from the validation of the parameters). *)
Definition document_record (r : LogRecord) : bool :=
  match r with
  | WarnEmptyDocument _ | ErrorUnitTooLong _ _ | ErrorUnitTooManyTokens _ _ _ => true
  | _ => false
  end.

(** A computation logs records, then raises or returns. *)
Definition M (A : Type) : Type := list LogRecord * (Exc + A).

Definition raise {A} (e : Exc) : M A := ([], inl e).
Definition log (r : LogRecord) : M unit := ([r], inr tt).

#[global] Instance M_ret : MRet M := λ A a, ([], inr a).

#[global] Instance M_bind : MBind M := λ A B k m,
  match m with
  | (l, inl e) => (l, inl e)
  | (l, inr a) => let '(l', r) := k a in (l ++ l', r)
  end.

Definition when (b : bool) (m : M unit) : M unit := if b then m else mret tt.

(** A [for] loop that appends what each iteration yields. *)
Fixpoint for_each {A B} (body : A → M (list B)) (xs : list A) : M (list B) :=
  match xs with
  | [] => mret []
  | x :: xs' => ys ← body x; zs ← for_each body xs'; mret (ys ++ zs)
  end.

(** Python truth values. *)
Definition truthy_int (z : Z) : bool := negb (z =? 0).
Definition truthy_opt {A} (o : option (list A)) : bool :=
  match o with Some (_ :: _) => true | _ => false end.

(** ** Parameter validation *)

(** [get_args(SplitBy)] *)
Definition SplitBy : list string :=
  ["character"; "token"; "word"; "sentence"; "paragraph"; "page"; "regex"]%string.

Definition msg_split_by : string :=
  "split_by must be one of: character, token, word, sentence, paragraph, page, regex".
Definition msg_split_length : string := "split_length must be an integer >= 0".
Definition msg_split_overlap : string := "split_overlap must be an integer >= 0".
Definition msg_overlap_length : string := "split_length must be higher than split_overlap".

Definition _validate_split_params
    (split_by : string) (split_regex : option str) (split_separators : option (list str))
    (split_length split_overlap max_chars max_tokens : Z) : M unit :=
  when (negb (bool_decide (split_by ∈ SplitBy))) (raise (ValueError msg_split_by)) ;;
  when (split_length <? 0) (raise (ValueError msg_split_length)) ;;
  when ((split_length =? 0) && negb (truthy_int max_tokens))
       (log (WarnSplitLengthZero max_chars)) ;;
  when (truthy_int split_length)
       (when (split_overlap <? 0) (raise (ValueError msg_split_overlap)) ;;
        when (split_overlap >=? split_length) (raise (ValueError msg_overlap_length))) ;;
  when (truthy_opt split_regex && negb (bool_decide (split_by = "regex"%string)))
       (log (WarnRegexIgnored split_by)) ;;
  when (truthy_opt split_separators && negb (bool_decide (split_by = "separator"%string)))
       (log (WarnSeparatorsIgnored split_by)).

(** ** Segmentation helpers (haystack/nodes/preprocessor/split_helpers.py) *)

(** Modelled from the spec: part of [split_by_separators] (section 4.1,
    "first-match-wins when separators overlap at a position"). The first
    separator of the list, in the order given, that the text starts with. An
    empty separator matches nowhere. *)
Definition first_match (separators : list str) (text : str) : option str :=
  head (filter (λ sep, sep ≠ [] ∧ sep `prefix_of` text) separators).

(** Modelled from the spec: the scan of [split_by_separators] (section 4.1,
    "retaining the separator as a trailing part of each preceding unit"). The
    text is read from left to right; [cur] is the unit being built. A
    separator found at the current position ends the unit and stays at its
    end. Every round reads at least one character, so one round more than
    the text has characters is enough ([split_units_concat]). *)
Fixpoint split_units (fuel : nat) (separators : list str) (text cur : str) : list str :=
  match fuel with
  | O => []
  | S fuel' =>
      match text with
      | [] => match cur with [] => [] | _ => [cur] end
      | c :: rest =>
          match first_match separators text with
          | Some sep =>
              (cur ++ sep) :: split_units fuel' separators (drop (length sep) text) []
          | None => split_units fuel' separators rest (cur ++ [c])
          end
      end
  end.

(** Modelled from the spec: [split_by_separators] of split_helpers.py, which
    is not among the sources. Section 4.1: split on any of an ordered list of
    literal strings, the first one in the list winning where several match at
    a position, each separator kept as the trailing part of the unit before
    it, so that the units put together again give the text. *)
Definition split_by_separators (text : str) (separators : list str) : list str :=
  split_units (S (length text)) separators text [].

(** Modelled from the spec: [split_by_separator] of split_helpers.py, which
    is not among the sources. Section 4.1 (page, paragraph): split on one
    separator, kept in the same trailing way. *)
Definition split_by_separator (text : str) (separator : str) : list str :=
  split_by_separators text [separator].

(** Modelled from the spec: [split_by_sentence_tokenizer] of split_helpers.py,
    which is not among the sources. Section 4.1 (sentence): it hands the text
    to the external sentence segmentation capability, here a function from a
    text to its sentences. *)
Definition split_by_sentence_tokenizer (text : str) (tokenizer : str → list str) : list str :=
  tokenizer text.

(** Modelled from the spec: [split_by_transformers_tokenizer] of
    split_helpers.py, which is not among the sources. Section 6: the external
    tokenizer gives the ordered tokens of a text; the first component of the
    result is that list (the second, the model's encoding, is not used by the
    splitter). *)
Definition split_by_transformers_tokenizer (text : str) (tokenizer : str → list str)
    : list str * unit :=
  (tokenizer text, tt).

(** ** Unit validation and window assembly (haystack/nodes/preprocessor/merge_helpers.py) *)

(** Modelled from the spec: the forced split of [validate_unit_boundaries]
    (section 4.2), consecutive slices of exactly [size] characters, of which
    the last one may be shorter. *)
Definition slices (size : nat) (text : str) : list str :=
  (λ i, take size (drop (i * size) text)) <$> seq 0 ((length text + size - 1) / size)%nat.

(** Modelled from the spec: the token spans of section 4.2; the tokens of a
    document follow each other, the first one at [pos]. *)
Fixpoint token_starts (pos : nat) (tokens : list str) : list nat :=
  match tokens with
  | [] => []
  | t :: ts => pos :: token_starts (pos + length t)%nat ts
  end.

(** What [split] hands over as [tokens]: for a model tokenizer the whole
    result of [split_by_transformers_tokenizer], for a callable the list it
    returns. *)
Inductive Tokens :=
| ModelTokens (result : list str * unit)
| CallableTokens (tokens : list str).

(** Modelled from the spec: the ordered tokens of the document (section 6)
    that [validate_unit_boundaries] reads from its argument [tokens]; of the
    result of a model tokenizer they are the first component. *)
Definition token_list (tokens : Tokens) : list str :=
  match tokens with
  | ModelTokens result => result.1
  | CallableTokens tokens => tokens
  end.

(** Modelled from the spec: the token count of a unit (section 3, Unit), the
    number of tokens that start in the span [[a, b)] of the document; [None]
    when the document was not tokenized. *)
Definition token_count (tokens : option Tokens) (a b : nat) : option nat :=
  starts ← token_starts 0 ∘ token_list <$> tokens;
  Some (length (filter (λ o, (a ≤ o < b)%nat) starts)).

(** Modelled from the spec: part of [validate_unit_boundaries]; the slices
    of a unit that is too long, each with its own token count. *)
Fixpoint sliced_units (tokens : option Tokens) (pos : nat) (parts : list str)
    : list (str * nat) :=
  match parts with
  | [] => []
  | p :: ps =>
      (p, default O (token_count tokens pos (pos + length p)%nat))
        :: sliced_units tokens (pos + length p)%nat ps
  end.

(** Modelled from the spec: the check of one unit by
    [validate_unit_boundaries] (section 4.2). The unit starts at offset [pos]
    of the document; the token limit is looked at first and only reported,
    the character limit is checked last and cuts the unit. *)
Definition validate_unit (max_chars max_tokens : Z) (tokens : option Tokens)
    (pos : nat) (text : str) : M (list (str * nat)) :=
  let n_tokens := token_count tokens pos (pos + length text)%nat in
  match n_tokens with
  | Some n =>
      when ((0 <? max_tokens) && (max_tokens <? Z.of_nat n))
           (log (ErrorUnitTooManyTokens text n max_tokens))
  | None => mret tt
  end ;;
  if (0 <? max_chars) && (max_chars <? len text)
  then log (ErrorUnitTooLong text max_chars) ;;
       mret (sliced_units tokens pos (slices (Z.to_nat max_chars) text))
  else mret [(text, default O n_tokens)].

(** Modelled from the spec: the walk of [validate_unit_boundaries] over the
    units, in order; [pos] is the offset of the next unit in the document. *)
Fixpoint validate_units (max_chars max_tokens : Z) (tokens : option Tokens)
    (pos : nat) (contents : list str) : M (list (str * nat)) :=
  match contents with
  | [] => mret []
  | text :: rest =>
      valid ← validate_unit max_chars max_tokens tokens pos text;
      others ← validate_units max_chars max_tokens tokens (pos + length text)%nat rest;
      mret (valid ++ others)
  end.

(** Modelled from the spec: [validate_unit_boundaries] of merge_helpers.py,
    which is not among the sources. Section 4.2: a unit longer than
    [max_chars > 0] is cut into consecutive slices of exactly [max_chars]
    characters (the last may be shorter) and reported; a unit with more than
    [max_tokens > 0] tokens is passed on as it is and reported; the character
    limit is checked last; order is kept. The result pairs each unit with its
    token count, as [split] reads it ([valid_contents[i][0]] is the text).
    Section 4.2 leaves open how the tokens of the document are counted per
    unit: here a token belongs to the unit in whose span it starts, and the
    count is 0 when there are no tokens. *)
Definition validate_unit_boundaries (contents : list str) (max_chars max_tokens : Z)
    (tokens : option Tokens) : M (list (str * nat)) :=
  validate_units max_chars max_tokens tokens 0 contents.

(** Modelled from the spec: the limits of a window of [make_merge_groups]
    (section 4.3). Whether the window, holding [count] units of [chars]
    characters and [toks] tokens, may take one more unit: the count is below
    [window_size], and with the unit the characters and tokens stay within
    [max_chars] and [max_tokens]; a limit that is not positive is off. *)
Definition fits (window_size max_chars max_tokens : Z) (count chars toks : Z)
    (u : str * nat) : bool :=
  (negb (0 <? window_size) || (count <? window_size))
  && (negb (0 <? max_chars) || (chars + len u.1 <=? max_chars))
  && (negb (0 <? max_tokens) || (toks + Z.of_nat u.2 <=? max_tokens)).

(** Modelled from the spec: the growth of a window of [make_merge_groups]
    (section 4.3); how many of the units [rest] the window takes after the
    ones it holds. *)
Fixpoint grow (window_size max_chars max_tokens : Z) (count chars toks : Z)
    (rest : list (str * nat)) : nat :=
  match rest with
  | [] => O
  | u :: rest' =>
      if fits window_size max_chars max_tokens count chars toks u
      then S (grow window_size max_chars max_tokens
                (count + 1) (chars + len u.1) (toks + Z.of_nat u.2) rest')
      else O
  end.

(** Modelled from the spec: a window of [make_merge_groups] (section 4.3,
    "a window must contain at least one unit"). Length of the window that
    starts with the first of [units]: that unit is always taken. *)
Definition window_length (window_size max_chars max_tokens : Z)
    (units : list (str * nat)) : nat :=
  match units with
  | [] => O
  | u :: rest =>
      S (grow window_size max_chars max_tokens 1 (len u.1) (Z.of_nat u.2) rest)
  end.

(** Modelled from the spec: the stride of [make_merge_groups] (section
    4.3). Start of the window after [[s, s + k)]. *)
Definition next_start (window_size window_overlap : Z) (s k : nat) : nat :=
  if 0 <? window_size
  then (s + Z.to_nat (Z.max (window_size - window_overlap) 1))%nat
  else (s + k)%nat.

(** Modelled from the spec: the loop of [make_merge_groups] over the window
    starts (section 4.3). It ends when the start reaches the number of
    units, and also once a window holds the last unit: the example of
    section 8 has the windows [[0,1]], [[1,2]], [[2,3]] for four units with
    [window_size = 2] and [window_overlap = 1], and no fourth window [[3]]. *)
Fixpoint merge_loop (fuel : nat) (contents : list (str * nat))
    (window_size window_overlap max_chars max_tokens : Z) (s : nat) : list (list nat) :=
  match fuel with
  | O => []
  | S fuel' =>
      if decide (length contents ≤ s)%nat then []
      else
        let k := window_length window_size max_chars max_tokens (drop s contents) in
        seq s k
          :: (if decide (length contents ≤ s + k)%nat then []
              else merge_loop fuel' contents window_size window_overlap max_chars
                     max_tokens (next_start window_size window_overlap s k))
  end.

(** Modelled from the spec: [make_merge_groups] of merge_helpers.py, which
    is not among the sources. Section 4.3: from the start [s = 0], a window
    takes consecutive units while the unit count is below [window_size] (when
    positive) and the characters and tokens taken stay within [max_chars] and
    [max_tokens] (when positive), and always at least one unit; the window
    [[s, e)] is recorded; the next one starts at
    [s + max (window_size - window_overlap) 1] when [window_size > 0] and at
    [e] otherwise; the loop ends when [s] reaches the number of units, and
    (section 8) with the window that holds the last unit. A window is the
    list of its unit indices. Every start is at least one further than the
    one before, so as many rounds as there are units are enough
    ([loop_enough_fuel]). *)
Definition make_merge_groups (contents : list (str * nat))
    (window_size window_overlap max_chars max_tokens : Z) : list (list nat) :=
  merge_loop (length contents) contents window_size window_overlap max_chars max_tokens 0.

(** ** The splitter *)

(** [self.tokenizer]: a model tokenizer ([PreTrainedTokenizer] or
    [FeatureExtractor]), used through [split_by_transformers_tokenizer], or a
    plain callable from a text to its tokens. *)
Inductive Tokenizer :=
| ModelTokenizer (tokenize : str → list str)
| CallableTokenizer (tokenize : str → list str).

(** The attributes of [self] that [split] and [get_splitter] read. The
    sentence tokenizer is the one [load_sentence_tokenizer] gives, as a
    function from a text to its sentences. *)
Record DocumentSplitter := {
  self_split_by : string;
  self_split_length : Z;
  self_split_overlap : Z;
  self_split_regex : option str;
  self_split_separators : option (list str);
  self_max_chars : Z;
  self_max_tokens : Z;
  self_progress_bar : bool;
  self_add_page_number : bool;
  self_sentence_tokenizer : str → list str;
  self_tokenizer : option Tokenizer;
}.

(** The tokenizer that [tokenizer_model="word"] installs. *)
Definition word_tokenizer : Tokenizer :=
  CallableTokenizer (λ text, split_by_separators text [[space]; [newline]; [form_feed]]).

Definition msg_no_regex : string :=
  "If 'split_by' is set to 'regex', you must give a value to 'split_regex'.".
Definition msg_no_separators : string :=
  "If 'split_by' is set to 'separators', you must give a value to 'split_separators'.".
Definition msg_get_splitter : string :=
  "split_by must be either 'character', 'word', 'sentence', 'paragraph', 'page', 'regex', 'separators'".
Definition msg_not_text : string :=
  "Some documents do not contain text. Make sure to pass only text documents to this node. You can use a RouteDocuments node to make sure only text documents are sent to the DocumentCleaner.".
Definition msg_no_tokenizer : string :=
  "If you set split_by='token', you must give a value to 'tokenizer_model'. Use the same model you're using for your Reader, or `word` for a whitespace-based (very fast) tokenization.".
Definition msg_not_callable : string := "'NoneType' object is not callable".
Definition msg_index : string := "list index out of range".

(** [l[i]] *)
Definition getitem {A} (l : list A) (i : nat) : M A :=
  match l !! i with
  | Some x => mret x
  | None => raise (IndexError msg_index)
  end.

(** [fix_metadata] returns on its first line; the statements after that
    [return] are never run. *)
Definition fix_metadata (source_text : str) (preprocessed_texts : list str)
    (source_meta : gmap string MetaValue) : list (gmap string MetaValue) :=
  replicate (length preprocessed_texts) source_meta.

Section Splitter.

(** [split_by_regex] of split_helpers.py is not among the sources and rests
    on the regular expression engine: it is taken as given, from a text and
    a pattern to the units. *)
Variable split_by_regex : str → str → list str.

(** The function that [get_splitter] returns is called once per document;
    the one for [split_by="token"] calls [self.tokenizer], which fails when
    there is none. *)
Definition get_splitter (self : DocumentSplitter) (split_by : string)
    (split_regex : option str) (split_separators : option (list str))
    : M (str → M (list str)) :=
  if bool_decide (split_by = "regex"%string) then
    match split_regex with
    | Some (c :: pattern) => mret (λ text, mret (split_by_regex text (c :: pattern)))
    | _ => raise (ValueError msg_no_regex)
    end
  else if bool_decide (split_by = "separators"%string) then
    match split_separators with
    | Some (sep :: seps) => mret (λ text, mret (split_by_separators text (sep :: seps)))
    | _ => raise (ValueError msg_no_separators)
    end
  else if bool_decide (split_by = "page"%string) then
    mret (λ text, mret (split_by_separator text [form_feed]))
  else if bool_decide (split_by = "paragraph"%string) then
    mret (λ text, mret (split_by_separator text [newline; newline]))
  else if bool_decide (split_by = "sentence"%string) then
    mret (λ text, mret (split_by_sentence_tokenizer text (self_sentence_tokenizer self)))
  else if bool_decide (split_by = "word"%string) then
    mret (λ text, mret (split_by_separators text [[space]; [newline]; [form_feed]]))
  else if bool_decide (split_by = "token"%string) then
    match self_tokenizer self with
    | Some (ModelTokenizer tokenize) =>
        mret (λ text, mret (split_by_transformers_tokenizer text tokenize).1)
    | Some (CallableTokenizer tokenize) => mret (λ text, mret (tokenize text))
    | None => mret (λ text, raise (TypeError msg_not_callable))
    end
  else raise (ValueError msg_get_splitter).

(** The text of one window: its units joined with a space. *)
Definition window_text (valid_contents : list (str * nat)) (window : list nat) : M str :=
  texts ← mapM (λ doc_index, u ← getitem valid_contents doc_index; mret u.1) window;
  mret (join [space] texts).

(** The tokens of a document, computed when [max_tokens] is set ([tokens]
    stays [None] otherwise). Calling [self.tokenizer] fails when there is
    none. *)
Definition count_tokens (self : DocumentSplitter) (max_tokens : Z) (text : str)
    : M (option Tokens) :=
  if truthy_int max_tokens then
    match self_tokenizer self with
    | Some (ModelTokenizer tokenize) =>
        mret (Some (ModelTokens (split_by_transformers_tokenizer text tokenize)))
    | Some (CallableTokenizer tokenize) => mret (Some (CallableTokens (tokenize text)))
    | None => raise (TypeError msg_not_callable)
    end
  else mret None.

(** The body of the loop of [split] over the documents. *)
Definition split_document (self : DocumentSplitter)
    (splitter_function : str → M (list str))
    (split_length split_overlap max_chars max_tokens : Z) (document : Document)
    : M (list Document) :=
  match content document with
  | [] => log (WarnEmptyDocument document) ;; mret []
  | _ =>
      tokens ← count_tokens self max_tokens (content document);
      split_content ← splitter_function (content document);
      valid_contents ← validate_unit_boundaries split_content max_chars max_tokens tokens;
      let windows :=
        make_merge_groups valid_contents split_length split_overlap max_chars max_tokens in
      split_documents ← mapM (window_text valid_contents) windows;
      let split_metadata :=
        fix_metadata (content document) split_documents (meta document) in
      mret (zip_with
              (λ split_doc split_meta,
                 {| content := split_doc; content_type := "text";
                    meta := split_meta; id_hash_keys := id_hash_keys document |})
              split_documents split_metadata)
  end.

Definition split (self : DocumentSplitter) (documents : list Document)
    (split_by : option string) (split_regex : option str)
    (split_separators : option (list str))
    (split_length split_overlap max_chars max_tokens : option Z)
    (add_page_number progress_bar : option bool) : M (list Document) :=
  let split_by := default (self_split_by self) split_by in
  let split_regex := from_option Some (self_split_regex self) split_regex in
  let split_separators := from_option Some (self_split_separators self) split_separators in
  let split_length := default (self_split_length self) split_length in
  let split_overlap := default (self_split_overlap self) split_overlap in
  let max_chars := default (self_max_chars self) max_chars in
  let max_tokens := default (self_max_tokens self) max_tokens in
  let add_page_number := default (self_add_page_number self) add_page_number in
  _validate_split_params split_by split_regex split_separators
    split_length split_overlap max_chars max_tokens ;;
  when (existsb (λ document, negb (bool_decide (content_type document = "text"%string)))
          documents)
       (raise (ValueError msg_not_text)) ;;
  when (bool_decide (split_by = "token"%string) && negb (bool_decide (is_Some (self_tokenizer self))))
       (raise (ValueError msg_no_tokenizer)) ;;
  splitter_function ← get_splitter self split_by split_regex split_separators;
  for_each (split_document self splitter_function split_length split_overlap max_chars max_tokens)
    documents.

End Splitter.

(** ** Construction, [run] and [run_batch] *)

(** The values [tokenizer_model] takes: a string (["word"] or the name of a
    model), a [Path], a tokenizer object ([PreTrainedTokenizer] or
    [FeatureExtractor]), or any other callable. *)
Inductive TokenizerModel :=
| ModelName (name : string)
| ModelPath (path : string)
| ModelObject (tokenize : str → list str)
| ModelCallable (tokenize : str → list str).

(** The truth value of [tokenizer_model]: [None] and the empty string are
    false. *)
Definition truthy_model (tokenizer_model : option TokenizerModel) : bool :=
  match tokenizer_model with
  | None | Some (ModelName EmptyString) => false
  | Some _ => true
  end.

Definition msg_tokenizer_none : string :=
  "Can't set the tokenizer to None. Provide either the string 'word', a Hugging Face identifier, a path to a local tokenizer, or an instance of Haystack's FeatureExtractor or Transformers' PreTrainedTokenizer. You can also provide your own lambda function to tokenize text: in this case make sure it takes only one input parameter called 'text'.".

Section Component.

Variable split_by_regex : str → str → list str.

(** [FeatureExtractor(pretrained_model_name_or_path=...)] and
    [load_sentence_tokenizer(language=..., tokenizer_model_folder=...)] load
    external models: they are taken as given, as the tokenizer and the
    sentence tokenizer they return. *)
Variable FeatureExtractor : string → str → list str.
Variable load_sentence_tokenizer : string → option string → str → list str.

(** The setter of the property [tokenizer]; it returns the new value of
    [self._tokenizer]. *)
Definition tokenizer_setter (tokenizer_model : option TokenizerModel) : M (option Tokenizer) :=
  if negb (truthy_model tokenizer_model) then raise (ValueError msg_tokenizer_none)
  else
    match tokenizer_model with
    | Some (ModelObject tokenize) => mret (Some (ModelTokenizer tokenize))
    | Some (ModelName name) =>
        if bool_decide (name = "word"%string) then mret (Some word_tokenizer)
        else mret (Some (ModelTokenizer (FeatureExtractor name)))
    | Some (ModelPath path) => mret (Some (ModelTokenizer (FeatureExtractor path)))
    | Some (ModelCallable tokenize) => mret (Some (CallableTokenizer tokenize))
    | None => mret None
    end.

(** [DocumentSplitter(...)]: the parameters are validated, stored, and the
    tokenizer is set when there is a [tokenizer_model] or [max_tokens] is not
    zero. The sentence tokenizer, which the code loads here for
    [split_by="sentence"] and in [get_splitter] otherwise, is in both cases
    the one [load_sentence_tokenizer] gives for the language and the folder
    (an empty [nltk_folder] counts as none). *)
Definition __init__ (split_by : string) (split_length : Z)
    (split_separators : option (list str)) (split_regex : option str)
    (split_overlap max_chars max_tokens : Z)
    (tokenizer_model : option TokenizerModel)
    (nltk_language : string) (nltk_folder : option string)
    (progress_bar add_page_number : bool) : M DocumentSplitter :=
  _validate_split_params split_by split_regex split_separators
    split_length split_overlap max_chars max_tokens ;;
  let _nltk_folder :=
    match nltk_folder with
    | Some (String c folder) => Some (String c folder)
    | _ => None
    end in
  _tokenizer ← (if truthy_model tokenizer_model || truthy_int max_tokens
                then tokenizer_setter tokenizer_model
                else mret None);
  mret {| self_split_by := split_by;
          self_split_length := split_length;
          self_split_overlap := split_overlap;
          self_split_regex := split_regex;
          self_split_separators := split_separators;
          self_max_chars := max_chars;
          self_max_tokens := max_tokens;
          self_progress_bar := progress_bar;
          self_add_page_number := add_page_number;
          self_sentence_tokenizer := load_sentence_tokenizer nltk_language _nltk_folder;
          self_tokenizer := _tokenizer |}.

(** [run] returns [({"documents": split_documents}, "output_1")]: the
    documents and the name of the outgoing edge. *)
Definition run (self : DocumentSplitter) (documents : list Document)
    (split_by : option string) (split_regex : option str)
    (split_separators : option (list str))
    (split_length split_overlap max_chars max_tokens : option Z)
    (add_page_number : option bool) (progress_bar : bool)
    : M (list Document * string) :=
  split_documents ← split split_by_regex self documents split_by split_regex
                      split_separators split_length split_overlap max_chars max_tokens
                      add_page_number (Some progress_bar);
  mret (split_documents, "output_1"%string).

(** [run_batch] calls [run] on every list of documents, in order; it hands
    on neither separators nor [max_tokens], and switches the progress bar of
    the inner calls off. *)
Definition run_batch (self : DocumentSplitter) (documents : list (list Document))
    (split_by : option string) (split_regex : option str)
    (split_length split_overlap split_max_chars : option Z)
    (add_page_number progress_bar : option bool)
    : M (list (list Document) * string) :=
  documents ← mapM (λ docs,
                 out ← run self docs split_by split_regex None
                         split_length split_overlap split_max_chars None
                         add_page_number false;
                 mret out.1)
               documents;
  mret (documents, "output_1"%string).

End Component.

(** ** Sample inputs *)

(** A regular expression engine that finds no match; the samples do not
    split by regex. *)
Definition no_regex : str → str → list str := λ text pattern, [text].

(** [DocumentSplitter(split_by=..., split_length=..., split_overlap=...,
    max_chars=...)] with the other parameters at their defaults; the sentence
    tokenizer, not used by the samples, sees one sentence in every text. *)
Definition sample_splitter (split_by : string) (split_length split_overlap max_chars : Z)
    : DocumentSplitter :=
  {| self_split_by := split_by;
     self_split_length := split_length;
     self_split_overlap := split_overlap;
     self_split_regex := None;
     self_split_separators := None;
     self_max_chars := max_chars;
     self_max_tokens := 0;
     self_progress_bar := true;
     self_add_page_number := true;
     self_sentence_tokenizer := λ text, [text];
     self_tokenizer := Some word_tokenizer |}.

Definition text_document (text : str) (m : gmap string MetaValue) : Document :=
  {| content := text; content_type := "text"; meta := m; id_hash_keys := None |}.

Definition table_document : Document :=
  {| content := py "1,2"; content_type := "table"; meta := ∅; id_hash_keys := None |}.

(** [Document(content="", content_type="image")]: a document that is not
    text and has no content. *)
Definition empty_image_document : Document :=
  {| content := []; content_type := "image"; meta := ∅; id_hash_keys := None |}.

(** [self.split(documents)] with every optional argument left out. *)
Definition sample_split (self : DocumentSplitter) (documents : list Document)
    : M (list Document) :=
  split no_regex self documents None None None None None None None None None.

(** [{"headlines": [{"text": "cd", "start_idx": 3}]}] *)
Definition headlines_meta : gmap string MetaValue :=
  {[ "headlines"%string := MHeadlines [ {| h_text := py "cd"; start_idx := 3 |} ] ]}.

(** [{"page": 1}] *)
Definition page_meta : gmap string MetaValue := {[ "page"%string := MInt 1 ]}.

(** Two pages, "a" and "b", with a form feed between them. *)
Definition two_pages : str := py "a" ++ [form_feed] ++ py "b".

(** [DocumentSplitter(split_by="word", split_length=2, tokenizer_model=None)]:
    a splitter without a tokenizer. *)
Definition bare_splitter : DocumentSplitter :=
  {| self_split_by := "word";
     self_split_length := 2;
     self_split_overlap := 0;
     self_split_regex := None;
     self_split_separators := None;
     self_max_chars := 2000;
     self_max_tokens := 0;
     self_progress_bar := true;
     self_add_page_number := true;
     self_sentence_tokenizer := λ text, [text];
     self_tokenizer := None |}.

(** Stand-ins for the model loaders; the samples load no model. *)
Definition no_feature_extractor : string → str → list str := λ name text, [text].
Definition no_sentence_tokenizer : string → option string → str → list str :=
  λ language folder text, [text].

(** * Properties *)

(** ** The monad *)

Lemma bind_ret {A B} (a : A) (k : A → M B) : (mret a ≫= k) = k a.
Proof. unfold mbind, M_bind, mret, M_ret. by destruct (k a). Qed.

Lemma bind_raise {A B} (e : Exc) (k : A → M B) : (raise e ≫= k) = raise e.
Proof. reflexivity. Qed.

Lemma bind_log {B} (r : LogRecord) (k : unit → M B) :
  (log r ≫= k) = (r :: (k tt).1, (k tt).2).
Proof. unfold mbind, M_bind, log. by destruct (k tt). Qed.

Lemma when_false (m : M unit) {B} (k : unit → M B) : (when false m ≫= k) = k tt.
Proof. unfold when. apply bind_ret. Qed.

Lemma when_true_raise (e : Exc) {B} (k : unit → M B) :
  (when true (raise e) ≫= k) = raise e.
Proof. reflexivity. Qed.

Lemma bind_outcome {A B} (m : M A) (k : A → M B) :
  (m ≫= k).2 = match m.2 with inl e => inl e | inr a => (k a).2 end.
Proof. destruct m as [l [e|a]]; simpl; [done|]. by destruct (k a). Qed.

Lemma bind_log_of {A B} (m : M A) (k : A → M B) :
  (m ≫= k).1 = m.1 ++ match m.2 with inl e => [] | inr a => (k a).1 end.
Proof.
  destruct m as [l [e|a]]; simpl; [by rewrite app_nil_r|]. by destruct (k a).
Qed.

Lemma bind_fails {A B} (m : M A) (k : A → M B) l e :
  m = (l, inl e) → (m ≫= k) = (l, inl e).
Proof. by intros ->. Qed.

(** ** Parameter validation *)

(** What the validation does, case by case. *)
Lemma validate_unknown_split_by split_by split_regex split_separators
    split_length split_overlap max_chars max_tokens :
  split_by ∉ SplitBy →
  _validate_split_params split_by split_regex split_separators
    split_length split_overlap max_chars max_tokens = ([], inl (ValueError msg_split_by)).
Proof.
  intros Hin. unfold _validate_split_params.
  by rewrite (bool_decide_eq_false_2 _ Hin).
Qed.

Lemma validate_negative_length split_by split_regex split_separators
    split_length split_overlap max_chars max_tokens :
  split_by ∈ SplitBy → split_length < 0 →
  _validate_split_params split_by split_regex split_separators
    split_length split_overlap max_chars max_tokens = ([], inl (ValueError msg_split_length)).
Proof.
  intros Hin Hneg. unfold _validate_split_params.
  rewrite (bool_decide_eq_true_2 _ Hin). simpl negb. rewrite when_false.
  by replace (split_length <? 0) with true by (symmetry; apply Z.ltb_lt; lia).
Qed.

Lemma validate_bad_overlap split_by split_regex split_separators
    split_length split_overlap max_chars max_tokens :
  split_by ∈ SplitBy → 0 < split_length →
  split_overlap < 0 ∨ split_length ≤ split_overlap →
  ∃ msg, _validate_split_params split_by split_regex split_separators
    split_length split_overlap max_chars max_tokens = ([], inl (ValueError msg)).
Proof.
  intros Hin Hpos Hbad. unfold _validate_split_params.
  rewrite (bool_decide_eq_true_2 _ Hin). simpl negb. rewrite when_false.
  replace (split_length <? 0) with false by (symmetry; apply Z.ltb_ge; lia).
  rewrite when_false.
  replace (split_length =? 0) with false by (symmetry; apply Z.eqb_neq; lia).
  simpl andb. rewrite when_false.
  unfold truthy_int.
  replace (split_length =? 0) with false by (symmetry; apply Z.eqb_neq; lia).
  simpl negb. unfold when at 1.
  destruct (split_overlap <? 0) eqn:Hneg.
  - by exists msg_split_overlap.
  - rewrite when_false.
    replace (split_overlap >=? split_length) with true; [by exists msg_overlap_length|].
    symmetry. apply Z.geb_le. apply Z.ltb_ge in Hneg. lia.
Qed.

(** The validation writes no record about a document. *)
Lemma validate_log_no_document split_by split_regex split_separators
    split_length split_overlap max_chars max_tokens :
  Forall (λ r, document_record r = false)
    (_validate_split_params split_by split_regex split_separators
       split_length split_overlap max_chars max_tokens).1.
Proof.
  unfold _validate_split_params, when, raise, log.
  repeat match goal with
         | |- context [if ?b then _ else _] => destruct b
         end; simpl; repeat constructor.
Qed.

(** ** [split]: errors raised before the loop over the documents *)

Section SplitErrors.

Variable split_by_regex : str → str → list str.
Variable self : DocumentSplitter.

(** A failing validation is the outcome of [split], whatever the documents. *)
Lemma split_validation_fails documents split_by split_regex split_separators
    split_length split_overlap max_chars max_tokens add_page_number progress_bar l e :
  _validate_split_params
    (default (self_split_by self) split_by)
    (from_option Some (self_split_regex self) split_regex)
    (from_option Some (self_split_separators self) split_separators)
    (default (self_split_length self) split_length)
    (default (self_split_overlap self) split_overlap)
    (default (self_max_chars self) max_chars)
    (default (self_max_tokens self) max_tokens) = (l, inl e) →
  split split_by_regex self documents split_by split_regex split_separators
    split_length split_overlap max_chars max_tokens add_page_number progress_bar
  = (l, inl e).
Proof. intros Hv. unfold split. by rewrite Hv. Qed.

Lemma any_not_text (documents : list Document) :
  (∃ d, d ∈ documents ∧ content_type d ≠ "text"%string) →
  existsb (λ document, negb (bool_decide (content_type document = "text"%string)))
    documents = true.
Proof.
  intros (d & Hd & Hty). apply existsb_exists. exists d. split.
  - by apply list_elem_of_In.
  - by rewrite bool_decide_eq_false_2.
Qed.

Lemma all_text (documents : list Document) :
  Forall (λ d, content_type d = "text"%string) documents →
  existsb (λ document, negb (bool_decide (content_type document = "text"%string)))
    documents = false.
Proof.
  induction 1 as [|d ds Hd _ IH]; [done|]. simpl.
  by rewrite (bool_decide_eq_true_2 _ Hd), IH.
Qed.

End SplitErrors.

Lemma validate_raises_value_error split_by split_regex split_separators
    split_length split_overlap max_chars max_tokens l e :
  _validate_split_params split_by split_regex split_separators
    split_length split_overlap max_chars max_tokens = (l, inl e) →
  ∃ msg, e = ValueError msg.
Proof.
  unfold _validate_split_params, when, raise, log.
  repeat match goal with
         | |- context [if ?b then _ else _] => destruct b
         end; simpl; intros [= <- <-] || intros [=]; eauto.
Qed.

(** C8. With [split_length < 0], or with [split_length > 0] and
    [split_overlap < 0] or [split_overlap >= split_length], [split] raises a
    [ValueError]: it returns no chunk, logs nothing about a document, and
    does so whatever the documents are. *)
Theorem split_rejects_bad_lengths split_by_regex self documents
    split_by split_regex split_separators split_length split_overlap
    max_chars max_tokens add_page_number progress_bar :
  let L := default (self_split_length self) split_length in
  let K := default (self_split_overlap self) split_overlap in
  L < 0 ∨ (0 < L ∧ (K < 0 ∨ K >= L)) →
  ∃ log msg,
    split split_by_regex self documents split_by split_regex split_separators
      split_length split_overlap max_chars max_tokens add_page_number progress_bar
    = (log, inl (ValueError msg))
    ∧ Forall (λ r, document_record r = false) log
    ∧ ∀ documents',
        split split_by_regex self documents' split_by split_regex split_separators
          split_length split_overlap max_chars max_tokens add_page_number progress_bar
        = (log, inl (ValueError msg)).
Proof.
  intros L K Hbad.
  assert (∃ msg,
    _validate_split_params
      (default (self_split_by self) split_by)
      (from_option Some (self_split_regex self) split_regex)
      (from_option Some (self_split_separators self) split_separators)
      L K
      (default (self_max_chars self) max_chars)
      (default (self_max_tokens self) max_tokens) = ([], inl (ValueError msg)))
    as [msg Hv].
  { destruct (decide (default (self_split_by self) split_by ∈ SplitBy)) as [Hin|Hin].
    - destruct Hbad as [Hneg|[Hpos Hov]].
      + eexists. by apply validate_negative_length.
      + apply validate_bad_overlap; [done..|]. lia.
    - eexists. by apply validate_unknown_split_by. }
  exists [], msg. split; [|split].
  - by apply split_validation_fails.
  - constructor.
  - intros documents'. by apply split_validation_fails.
Qed.

Lemma split_rejects_bad_lengths_witness :
  (let L := default (self_split_length (sample_splitter "word" 2 0 2000)) (Some 3) in
   let K := default (self_split_overlap (sample_splitter "word" 2 0 2000)) (Some 3) in
   L < 0 ∨ (0 < L ∧ (K < 0 ∨ K >= L)))
  ∧ ∃ log msg,
      split no_regex (sample_splitter "word" 2 0 2000) [text_document (py "a b c") ∅]
        None None None (Some 3) (Some 3) None None None None
      = (log, inl (ValueError msg))
      ∧ Forall (λ r, document_record r = false) log
      ∧ ∀ documents',
          split no_regex (sample_splitter "word" 2 0 2000) documents'
            None None None (Some 3) (Some 3) None None None None
          = (log, inl (ValueError msg)).
Proof.
  split.
  - simpl. right. lia.
  - apply (split_rejects_bad_lengths no_regex (sample_splitter "word" 2 0 2000)
             [text_document (py "a b c") ∅] None None None (Some 3) (Some 3)
             None None None None).
    simpl. right. lia.
Defined.

(** C10. When some document of the list is not a text document, [split]
    raises a [ValueError]: it returns no chunk, and its log is the log of the
    parameter validation, so that no document was processed, not even those
    before the offending one. *)
Theorem split_rejects_non_text split_by_regex self documents
    split_by split_regex split_separators split_length split_overlap
    max_chars max_tokens add_page_number progress_bar :
  (∃ d, d ∈ documents ∧ content_type d ≠ "text"%string) →
  ∃ msg,
    split split_by_regex self documents split_by split_regex split_separators
      split_length split_overlap max_chars max_tokens add_page_number progress_bar
    = ((_validate_split_params
          (default (self_split_by self) split_by)
          (from_option Some (self_split_regex self) split_regex)
          (from_option Some (self_split_separators self) split_separators)
          (default (self_split_length self) split_length)
          (default (self_split_overlap self) split_overlap)
          (default (self_max_chars self) max_chars)
          (default (self_max_tokens self) max_tokens)).1,
       inl (ValueError msg)).
Proof.
  intros Hd. apply any_not_text in Hd.
  destruct (_validate_split_params _ _ _ _ _ _ _) as [l [e|[]]] eqn:Hv.
  - destruct (validate_raises_value_error _ _ _ _ _ _ _ _ _ Hv) as [msg ->].
    exists msg. by apply split_validation_fails.
  - exists msg_not_text. unfold split. rewrite Hv, Hd. simpl. by rewrite app_nil_r.
Qed.

Lemma split_rejects_non_text_witness :
  (∃ d, d ∈ [text_document (py "a b c") ∅; table_document]
        ∧ content_type d ≠ "text"%string)
  ∧ ∃ msg,
      sample_split (sample_splitter "word" 2 0 2000)
        [text_document (py "a b c") ∅; table_document]
      = ([], inl (ValueError msg)).
Proof.
  assert (∃ d, d ∈ [text_document (py "a b c") ∅; table_document]
               ∧ content_type d ≠ "text"%string) as Hd.
  { exists table_document. split; [|done]. apply list_elem_of_In. simpl. auto. }
  split; [exact Hd|].
  exact (split_rejects_non_text no_regex (sample_splitter "word" 2 0 2000)
           [text_document (py "a b c") ∅; table_document]
           None None None None None None None None None Hd).
Defined.

(** C7. [split_by="separators"] is not among the values of [SplitBy]: the
    parameter validation of [split] raises a [ValueError] for it, whether it
    comes from the call or from the splitter and whatever separators are
    given, and no document is split. *)
Theorem split_by_separators_rejected split_by_regex self documents
    split_by split_regex split_separators split_length split_overlap
    max_chars max_tokens add_page_number progress_bar :
  default (self_split_by self) split_by = "separators"%string →
  split split_by_regex self documents split_by split_regex
    split_separators split_length split_overlap max_chars max_tokens
    add_page_number progress_bar
  = ([], inl (ValueError msg_split_by)).
Proof.
  intros Hby. apply split_validation_fails. apply validate_unknown_split_by.
  rewrite Hby. unfold SplitBy. intros Hin.
  repeat (apply elem_of_cons in Hin as [Hin|Hin]; [discriminate|]).
  by apply elem_of_nil in Hin.
Qed.

Lemma split_by_separators_rejected_witness :
  default (self_split_by (sample_splitter "word" 1 0 2000)) (Some "separators"%string)
  = "separators"%string
  ∧ split no_regex (sample_splitter "word" 1 0 2000) [text_document (py "a--b") ∅]
      (Some "separators"%string) None (Some [py "--"]) None None None None None None
    = ([], inl (ValueError msg_split_by)).
Proof.
  split; [reflexivity|].
  apply (split_by_separators_rejected no_regex (sample_splitter "word" 1 0 2000)
           [text_document (py "a--b") ∅] (Some "separators"%string) None
           (Some [py "--"]) None None None None None None).
  reflexivity.
Defined.

(** ** [split]: the loop over the documents *)

Section SplitLoop.

Context {A B : Type}.
Variable body : A → M (list B).

(** An iteration that logs one record and yields nothing leaves the
    outcome of the loop as it is without that element. *)
Lemma for_each_skip (x : A) (xs : list A) (r : LogRecord) :
  body x = ([r], inr []) →
  for_each body (x :: xs) = (r :: (for_each body xs).1, (for_each body xs).2).
Proof.
  intros Hx. simpl. rewrite Hx. unfold mbind, M_bind, mret, M_ret.
  destruct (for_each body xs) as [l [e|zs]]; simpl; [done|].
  by rewrite app_nil_r.
Qed.

Lemma for_each_skip_outcome (xs1 : list A) (x : A) (xs2 : list A) (r : LogRecord) :
  body x = ([r], inr []) →
  (for_each body (xs1 ++ x :: xs2)).2 = (for_each body (xs1 ++ xs2)).2.
Proof.
  intros Hx. induction xs1 as [|y ys IH].
  - simpl app. by rewrite (for_each_skip _ _ _ Hx).
  - simpl. rewrite !bind_outcome. destruct (body y).2 as [e|zs]; [done|].
    rewrite !bind_outcome. rewrite IH. done.
Qed.

Lemma for_each_skip_logged (xs1 : list A) (x : A) (xs2 : list A) (r : LogRecord) zs :
  body x = ([r], inr []) →
  (for_each body (xs1 ++ xs2)).2 = inr zs →
  r ∈ (for_each body (xs1 ++ x :: xs2)).1.
Proof.
  intros Hx. revert zs. induction xs1 as [|y ys IH]; intros zs Hok.
  - simpl app. rewrite (for_each_skip _ _ _ Hx). simpl. apply elem_of_cons. by left.
  - simpl in *. rewrite bind_outcome in Hok. rewrite bind_log_of.
    destruct (body y).2 as [e|ys']; [done|].
    rewrite bind_outcome in Hok. rewrite bind_log_of.
    apply elem_of_app. right. apply elem_of_app. left.
    destruct (for_each body (ys ++ xs2)).2 as [e|zs'] eqn:Hrest; [done|].
    by eapply IH.
Qed.

End SplitLoop.

Lemma bind_outcome_ext {A B} (m : M A) (k1 k2 : A → M B) :
  (∀ a, (k1 a).2 = (k2 a).2) → (m ≫= k1).2 = (m ≫= k2).2.
Proof. intros Hk. rewrite !bind_outcome. destruct m.2; [done|apply Hk]. Qed.

Lemma bind_logged_ext {A B} (m : M A) (k1 k2 : A → M B) (r : LogRecord) :
  (∀ a zs, (k2 a).2 = inr zs → r ∈ (k1 a).1) →
  ∀ zs, (m ≫= k2).2 = inr zs → r ∈ (m ≫= k1).1.
Proof.
  intros Hk zs. rewrite bind_outcome, bind_log_of.
  destruct m.2 as [e|a]; [done|]. intros Hzs.
  apply elem_of_app. right. by eapply Hk.
Qed.

Lemma split_document_empty self splitter_function
    split_length split_overlap max_chars max_tokens d :
  content d = [] →
  split_document self splitter_function split_length split_overlap max_chars max_tokens d
  = ([WarnEmptyDocument d], inr []).
Proof. intros Hd. unfold split_document. by rewrite Hd. Qed.

(** C9, as stated, fails for a document without content that is not a
    text document: the check of the content types comes before the loop, so
    [split] raises a [ValueError] and returns no chunk of the two text
    documents around it. *)
Lemma empty_image_document_raises :
  content empty_image_document = []
  ∧ sample_split (sample_splitter "word" 1 0 2000)
      [text_document (py "a b") ∅; empty_image_document; text_document (py "c") ∅]
    = ([], inl (ValueError msg_not_text)).
Proof. split; [reflexivity|]. vm_compute. reflexivity. Qed.

(** C9, amended. A text document with empty content makes the body of the
    loop log a warning and yield no chunk, without an error; the outcome of
    [split] (the chunks of the other documents, or the error one of them
    raises) is what it is without that document, and when [split] returns the
    warning is in its log. *)
Theorem split_skips_empty_document split_by_regex self docs1 d docs2
    split_by split_regex split_separators split_length split_overlap
    max_chars max_tokens add_page_number progress_bar :
  content d = [] →
  content_type d = "text"%string →
  (∀ splitter_function L K mc mt,
     split_document self splitter_function L K mc mt d
     = ([WarnEmptyDocument d], inr []))
  ∧ (split split_by_regex self (docs1 ++ d :: docs2) split_by split_regex split_separators
       split_length split_overlap max_chars max_tokens add_page_number progress_bar).2
    = (split split_by_regex self (docs1 ++ docs2) split_by split_regex split_separators
         split_length split_overlap max_chars max_tokens add_page_number progress_bar).2
  ∧ (∀ chunks,
       (split split_by_regex self (docs1 ++ docs2) split_by split_regex split_separators
          split_length split_overlap max_chars max_tokens add_page_number progress_bar).2
       = inr chunks →
       WarnEmptyDocument d
       ∈ (split split_by_regex self (docs1 ++ d :: docs2) split_by split_regex
            split_separators split_length split_overlap max_chars max_tokens
            add_page_number progress_bar).1).
Proof.
  intros Hd Hty.
  assert (∀ P : Document → bool, P d = false →
            existsb P (docs1 ++ d :: docs2) = existsb P (docs1 ++ docs2)) as Hany.
  { intros P HP. rewrite !existsb_app. simpl. by rewrite HP. }
  split; [|split].
  - intros. by apply split_document_empty.
  - unfold split. rewrite Hany by (by rewrite (bool_decide_eq_true_2 _ Hty)).
    do 4 (apply bind_outcome_ext; intros ?).
    apply for_each_skip_outcome with (r := WarnEmptyDocument d).
    by apply split_document_empty.
  - intros chunks. unfold split.
    rewrite Hany by (by rewrite (bool_decide_eq_true_2 _ Hty)).
    revert chunks. do 4 (apply bind_logged_ext; intros ?).
    intros zs. apply for_each_skip_logged. by apply split_document_empty.
Qed.

Lemma split_skips_empty_document_witness :
  content (text_document [] ∅) = []
  ∧ content_type (text_document [] ∅) = "text"%string
  ∧ sample_split (sample_splitter "word" 1 0 2000)
      [text_document (py "a b") ∅; text_document [] ∅; text_document (py "c") ∅]
    = ([WarnEmptyDocument (text_document [] ∅)],
       inr [text_document (py "a ") ∅; text_document (py "b") ∅; text_document (py "c") ∅])
  ∧ (sample_split (sample_splitter "word" 1 0 2000)
       [text_document (py "a b") ∅; text_document [] ∅; text_document (py "c") ∅]).2
    = (sample_split (sample_splitter "word" 1 0 2000)
         [text_document (py "a b") ∅; text_document (py "c") ∅]).2.
Proof.
  split; [reflexivity|]. split; [reflexivity|]. split; [vm_compute; reflexivity|].
  apply (split_skips_empty_document no_regex (sample_splitter "word" 1 0 2000)
           [text_document (py "a b") ∅] (text_document [] ∅) [text_document (py "c") ∅]
           None None None None None None None None None); reflexivity.
Defined.

(** ** [fix_metadata] and the chunks of a document *)

Lemma fix_metadata_length source_text preprocessed_texts source_meta :
  length (fix_metadata source_text preprocessed_texts source_meta)
  = length preprocessed_texts.
Proof. apply length_replicate. Qed.

(** Every metadata that [fix_metadata] returns is the metadata of the
    source document, as it is. *)
Lemma fix_metadata_source source_text preprocessed_texts source_meta m :
  m ∈ fix_metadata source_text preprocessed_texts source_meta → m = source_meta.
Proof. unfold fix_metadata. by intros [-> _]%elem_of_replicate. Qed.

Lemma zip_with_meta (texts : list str) (metas : list (gmap string MetaValue))
    (ids : option (list string)) (m : gmap string MetaValue) :
  Forall (λ x, x = m) metas →
  Forall (λ chunk, meta chunk = m)
    (zip_with (λ split_doc split_meta,
                 {| content := split_doc; content_type := "text";
                    meta := split_meta; id_hash_keys := ids |}) texts metas).
Proof.
  intros Hm. revert texts. induction Hm as [|x metas -> _ IH]; intros [|t texts]; simpl;
    constructor; auto.
Qed.

Lemma bind_inr {A B} (m : M A) (k : A → M B) l b :
  (m ≫= k) = (l, inr b) →
  ∃ l1 a l2, m = (l1, inr a) ∧ k a = (l2, inr b) ∧ l = l1 ++ l2.
Proof.
  destruct m as [l1 [e|a]]; simpl; [done|].
  destruct (k a) as [l2 r] eqn:Hk. intros [= <- ->]. by exists l1, a, l2.
Qed.

Lemma ret_inr {A} (a : A) l b : (mret a : M A) = (l, inr b) → a = b.
Proof. by intros [= _ <-]. Qed.

(** Every chunk of a document carries the metadata of the document,
    unchanged: its headlines with their offsets, and its page if it has one. *)
Lemma split_document_meta self splitter_function split_length split_overlap
    max_chars max_tokens document l chunks :
  split_document self splitter_function split_length split_overlap max_chars max_tokens
    document = (l, inr chunks) →
  Forall (λ chunk, meta chunk = meta document) chunks.
Proof.
  unfold split_document. destruct (content document) as [|c text].
  { intros [= _ <-]. constructor. }
  intros (? & tokens & ? & _ & Hrest & _)%bind_inr.
  apply bind_inr in Hrest as (? & split_content & ? & _ & Hrest & _).
  apply bind_inr in Hrest as (? & valid_contents & ? & _ & Hrest & _).
  apply bind_inr in Hrest as (? & split_documents & ? & _ & Hrest & _).
  apply ret_inr in Hrest as <-. apply zip_with_meta.
  apply Forall_forall. intros m Hm. by apply fix_metadata_source in Hm.
Qed.

(** C1. The document "ab cd" has one headline, at offset 3, which lies in
    the second of its two chunks, "ab " and "cd". Both chunks come out with
    the metadata of the document: the headline is on each of them, and its
    offset is still 3 (it would be 0 in the second chunk). *)
Theorem headline_on_every_chunk :
  sample_split (sample_splitter "word" 1 0 2000)
    [text_document (py "ab cd") headlines_meta]
  = ([], inr [text_document (py "ab ") headlines_meta;
              text_document (py "cd") headlines_meta]).
Proof. vm_compute. reflexivity. Qed.

(** C4. The document of two pages is split by page, with page numbers
    asked for. Its chunks, the first page with its form feed and the second
    page, have no "page" entry when the document has none, and both have the
    page of the document when it has one: the second chunk is never given
    page 2. *)
Theorem page_not_counted :
  self_add_page_number (sample_splitter "page" 1 0 2000) = true
  ∧ sample_split (sample_splitter "page" 1 0 2000) [text_document two_pages ∅]
    = ([], inr [text_document (py "a" ++ [form_feed]) ∅; text_document (py "b") ∅])
  ∧ sample_split (sample_splitter "page" 1 0 2000) [text_document two_pages page_meta]
    = ([], inr [text_document (py "a" ++ [form_feed]) page_meta;
                text_document (py "b") page_meta]).
Proof. split; [reflexivity|]. split; vm_compute; reflexivity. Qed.

(** C2. With [split_by="word"], [split_length=2] and no overlap, the
    document "a b" gives the single chunk "a  b": the space that joins the
    two units comes on top of the one the first unit ends with, and the
    chunks put together are not the content of the document. *)
Theorem joined_chunk_differs_from_content :
  sample_split (sample_splitter "word" 2 0 2000) [text_document (py "a b") ∅]
  = ([], inr [text_document (py "a  b") ∅])
  ∧ concat (content <$> [text_document (py "a  b") ∅]) ≠ py "a b".
Proof. split; [vm_compute; reflexivity|discriminate]. Qed.

(** C3. With [max_chars=4], [split_by="word"] and [split_length=2], the
    document "ab c" gives the single chunk "ab  c", of 5 characters: its two
    units have 4 characters together, and the space that joins them is the
    fifth. *)
Theorem joined_chunk_exceeds_max_chars :
  sample_split (sample_splitter "word" 2 0 4) [text_document (py "ab c") ∅]
  = ([], inr [text_document (py "ab  c") ∅])
  ∧ len (py "ab  c") = 5.
Proof. split; vm_compute; reflexivity. Qed.

(** ** Unit validation *)

Section Slices.

Local Open Scope nat_scope.

Lemma slices_count_covers (size n : nat) :
  0 < size → n ≤ (n + size - 1) / size * size.
Proof.
  intros Hsize.
  pose proof (Nat.div_mod_eq (n + size - 1) size) as Hdiv.
  pose proof (Nat.mod_upper_bound (n + size - 1) size) as Hmod. lia.
Qed.

Lemma slices_count_tight (size n k : nat) :
  0 < size → k < (n + size - 1) / size → k * size < n.
Proof.
  intros Hsize Hk.
  pose proof (Nat.div_mod_eq (n + size - 1) size) as Hdiv.
  assert (S k * size ≤ (n + size - 1) / size * size) by (apply Nat.mul_le_mono_r; lia).
  lia.
Qed.

Lemma slices_prefix (size : nat) (text : str) (k : nat) :
  concat ((λ i, take size (drop (i * size) text)) <$> seq 0 k) = take (k * size) text.
Proof.
  induction k as [|k IH]; [done|].
  rewrite seq_S, fmap_app, concat_app, IH. simpl.
  rewrite app_nil_r, take_take_drop. f_equal. lia.
Qed.

(** The slices of a text, put together again, are the text. *)
Lemma slices_concat (size : nat) (text : str) :
  0 < size → concat (slices size text) = text.
Proof.
  intros Hsize. unfold slices. rewrite slices_prefix.
  apply take_ge. by apply slices_count_covers.
Qed.

(** Every slice but the last has exactly [size] characters; the last has
    at least one and at most [size]. *)
Lemma slices_lengths (size : nat) (text : str) (k : nat) (s : str) :
  0 < size → slices size text !! k = Some s →
  0 < length s ≤ size ∧ (S k < length (slices size text) → length s = size).
Proof.
  intros Hsize. unfold slices. rewrite length_fmap, length_seq, list_lookup_fmap.
  destruct (seq 0 _ !! k) as [i|] eqn:Hi; [|done].
  apply lookup_seq in Hi as [-> Hk]. simpl. intros [= <-].
  rewrite length_take, length_drop.
  pose proof (slices_count_tight size (length text) k Hsize Hk).
  split; [lia|]. intros Hnext.
  pose proof (slices_count_tight size (length text) (S k) Hsize Hnext). lia.
Qed.

Lemma sliced_units_texts tokens pos parts : (sliced_units tokens pos parts).*1 = parts.
Proof.
  revert pos. induction parts as [|p ps IH]; intros pos; simpl; [done|]. by rewrite IH.
Qed.

End Slices.

Section Validation.

Variables (max_chars max_tokens : Z) (tokens : option Tokens).

(** The check of a unit that is not longer than [max_chars] (or with no
    character limit) passes the unit on as it is, whatever its tokens. *)
Lemma validate_unit_within pos text :
  (0 <? max_chars) && (max_chars <? len text) = false →
  (validate_unit max_chars max_tokens tokens pos text).2
  = inr [(text, default O (token_count tokens pos (pos + length text)))].
Proof.
  intros Hcap. unfold validate_unit. rewrite Hcap, bind_outcome.
  destruct (token_count _ _ _) as [n|]; simpl; [|done].
  unfold when. by destruct ((0 <? max_tokens) && _).
Qed.

(** The check of a unit longer than [max_chars > 0] cuts it and reports it. *)
Lemma validate_unit_too_long pos text :
  (0 <? max_chars) && (max_chars <? len text) = true →
  (validate_unit max_chars max_tokens tokens pos text).2
  = inr (sliced_units tokens pos (slices (Z.to_nat max_chars) text))
  ∧ ErrorUnitTooLong text max_chars
    ∈ (validate_unit max_chars max_tokens tokens pos text).1.
Proof.
  intros Hcap. unfold validate_unit. rewrite Hcap, bind_outcome, bind_log_of. split.
  - destruct (token_count _ _ _) as [n|]; simpl; [|done].
    unfold when. by destruct ((0 <? max_tokens) && _).
  - apply elem_of_app. right.
    destruct (token_count _ _ _) as [n|]; simpl; [unfold when; destruct ((0 <? max_tokens) && _)|];
      simpl; apply elem_of_cons; by left.
Qed.

(** The check of a unit with more than [max_tokens > 0] tokens reports it. *)
Lemma validate_unit_too_many_tokens pos text n :
  token_count tokens pos (pos + length text) = Some n →
  0 < max_tokens < Z.of_nat n →
  ErrorUnitTooManyTokens text n max_tokens
  ∈ (validate_unit max_chars max_tokens tokens pos text).1.
Proof.
  intros Hn Hover. unfold validate_unit. rewrite Hn, bind_log_of.
  apply elem_of_app. left.
  replace (0 <? max_tokens) with true by (symmetry; apply Z.ltb_lt; lia).
  replace (max_tokens <? Z.of_nat n) with true by (symmetry; apply Z.ltb_lt; lia).
  simpl. apply elem_of_cons. by left.
Qed.

Lemma validate_unit_total pos text :
  ∃ valid, (validate_unit max_chars max_tokens tokens pos text).2 = inr valid.
Proof.
  destruct ((0 <? max_chars) && (max_chars <? len text)) eqn:Hcap.
  - eexists. by apply validate_unit_too_long.
  - eexists. by apply validate_unit_within.
Qed.

(** The validated texts a unit stands for: the unit, or its slices when
    it is longer than [max_chars > 0]. *)
Local Abbreviation cut :=
  (λ unit_text : str,
     if (0 <? max_chars) && (max_chars <? len unit_text)
     then slices (Z.to_nat max_chars) unit_text else [unit_text]).

Lemma validate_unit_texts pos text pieces :
  (validate_unit max_chars max_tokens tokens pos text).2 = inr pieces →
  pieces.*1 = cut text.
Proof.
  simpl. destruct ((0 <? max_chars) && (max_chars <? len text)) eqn:Hcap.
  - destruct (validate_unit_too_long pos text Hcap) as [-> _].
    intros [= <-]. apply sliced_units_texts.
  - rewrite (validate_unit_within pos text Hcap). by intros [= <-].
Qed.

(** The walk never fails and keeps the order of the units: the unit at
    index [i] contributes what its own check logs and returns, after what
    the units before it give and before what the units after it give. *)
Lemma validate_units_in_place contents pos :
  ∃ valid,
    (validate_units max_chars max_tokens tokens pos contents).2 = inr valid
    ∧ valid.*1 = concat (cut <$> contents)
    ∧ ∀ i text, contents !! i = Some text →
        let p := (pos + length (concat (take i contents)))%nat in
        ∃ pieces before after,
          (validate_unit max_chars max_tokens tokens p text).2 = inr pieces
          ∧ valid = before ++ pieces ++ after
          ∧ before.*1 = concat (cut <$> take i contents)
          ∧ after.*1 = concat (cut <$> drop (S i) contents)
          ∧ ∀ r, r ∈ (validate_unit max_chars max_tokens tokens p text).1 →
                 r ∈ (validate_units max_chars max_tokens tokens pos contents).1.
Proof.
  revert pos. induction contents as [|text0 rest IH]; intros pos.
  { exists []. split; [done|]. split; [done|]. intros i text. by rewrite lookup_nil. }
  destruct (validate_unit_total pos text0) as [pieces0 Hhead].
  destruct (IH (pos + length text0)%nat) as (valid_rest & Hrest & Htexts & Hlookup).
  pose proof (validate_unit_texts _ _ _ Hhead) as Hpieces0.
  exists (pieces0 ++ valid_rest). split; [|split].
  { simpl. rewrite bind_outcome, Hhead, bind_outcome, Hrest. done. }
  { rewrite fmap_app, Hpieces0, Htexts. done. }
  intros [|i] text Hi p.
  - injection Hi as <-. subst p. simpl. rewrite Nat.add_0_r.
    exists pieces0, [], valid_rest. split; [done|]. split; [done|].
    split; [done|]. split; [by rewrite drop_0|].
    intros r Hr. rewrite bind_log_of. apply elem_of_app. by left.
  - simpl in Hi.
    destruct (Hlookup i text Hi)
      as (pieces & before & after & Hp & -> & Hbefore & Hafter & Hlog).
    subst p. simpl. rewrite length_app.
    replace (pos + (length text0 + length (concat (take i rest))))%nat
      with (pos + length text0 + length (concat (take i rest)))%nat by lia.
    exists pieces, (pieces0 ++ before), after. split; [done|].
    split; [by rewrite <-app_assoc|].
    split; [by rewrite fmap_app, Hpieces0, Hbefore|]. split; [done|].
    intros r Hr. rewrite bind_log_of, Hhead, bind_log_of.
    apply elem_of_app. right. apply elem_of_app. left. by apply Hlog.
Qed.

End Validation.

(** C6, as stated, fails on a unit that exceeds both limits: "hello world"
    has two tokens, more than [max_tokens = 1], and eleven characters, more
    than [max_chars = 5]; it is reported for its tokens and cut all the same,
    so that it is not among the validated units. *)
Lemma token_overflow_unit_is_cut :
  token_count (Some (CallableTokens [py "hello "; py "world"])) 0
    (length (py "hello world")) = Some 2%nat
  ∧ validate_unit_boundaries [py "hello world"] 5 1
      (Some (CallableTokens [py "hello "; py "world"]))
    = ([ErrorUnitTooManyTokens (py "hello world") 2 1;
        ErrorUnitTooLong (py "hello world") 5],
       inr [(py "hello", 1%nat); (py " worl", 1%nat); (py "d", 0%nat)])
  ∧ py "hello world" ∉ [(py "hello", 1%nat); (py " worl", 1%nat); (py "d", 0%nat)].*1.
Proof.
  split; [reflexivity|]. split; [vm_compute; reflexivity|].
  simpl. intros Hin.
  repeat (apply elem_of_cons in Hin as [Hin|Hin]; [discriminate|]).
  by apply elem_of_nil in Hin.
Qed.

(** C6, amended. The validation never fails and keeps the order of the
    units: the validated texts are, unit after unit, the unit itself when it
    is not longer than [max_chars] (or when [max_chars] is not positive) and
    its slices otherwise, and what a unit gives stands between what the units
    before it and the units after it give. A unit with more than
    [max_tokens > 0] tokens is reported; when it is not longer than
    [max_chars] it is passed on as it is, with its token count, however many
    tokens it has. A unit longer than [max_chars > 0] is reported and
    replaced, in place, by its slices: they give the unit back when put
    together, each has exactly [max_chars] characters but the last, which has
    at least one and at most [max_chars]. *)
Theorem validate_keeps_token_overflow_cuts_char_overflow
    (contents : list str) (max_chars max_tokens : Z) (tokens : option Tokens)
    (i : nat) (text : str) :
  contents !! i = Some text →
  let p := length (concat (take i contents)) in
  let cut := λ unit_text : str,
    if (0 <? max_chars) && (max_chars <? len unit_text)
    then slices (Z.to_nat max_chars) unit_text else [unit_text] in
  ∃ log valid before pieces after,
    validate_unit_boundaries contents max_chars max_tokens tokens = (log, inr valid)
    ∧ valid.*1 = concat (cut <$> contents)
    ∧ valid = before ++ pieces ++ after
    ∧ before.*1 = concat (cut <$> take i contents)
    ∧ after.*1 = concat (cut <$> drop (S i) contents)
    ∧ (∀ n, token_count tokens p (p + length text) = Some n →
            0 < max_tokens < Z.of_nat n →
            ErrorUnitTooManyTokens text n max_tokens ∈ log)
    ∧ (¬ (0 < max_chars < len text) →
       pieces = [(text, default O (token_count tokens p (p + length text)))])
    ∧ (0 < max_chars < len text →
       ErrorUnitTooLong text max_chars ∈ log
       ∧ pieces.*1 = slices (Z.to_nat max_chars) text
       ∧ concat pieces.*1 = text
       ∧ ∀ k s, pieces.*1 !! k = Some s →
           0 < len s ≤ max_chars
           ∧ (S k < length pieces → len s = max_chars)%nat).
Proof.
  intros Hi p cut. unfold validate_unit_boundaries.
  destruct (validate_units_in_place max_chars max_tokens tokens contents 0)
    as (valid & Hvalid & Htexts & Hlookup).
  destruct (Hlookup i text Hi)
    as (pieces & before & after & Hpieces & -> & Hbefore & Hafter & Hlog).
  simpl in Hpieces, Hlog. fold p in Hpieces, Hlog.
  destruct (validate_units max_chars max_tokens tokens 0 contents) as [log r] eqn:Hrun.
  simpl in Hvalid, Hlog. subst r.
  exists log, (before ++ pieces ++ after), before, pieces, after.
  split; [done|]. split; [exact Htexts|]. split; [done|].
  split; [exact Hbefore|]. split; [exact Hafter|]. split; [|split].
  - intros n Hn Hover. apply Hlog. by apply validate_unit_too_many_tokens.
  - intros Hcap. rewrite validate_unit_within in Hpieces.
    + by injection Hpieces as <-.
    + apply andb_false_iff. unfold len in *.
      destruct (Z.ltb_spec 0 max_chars); [|by left]. right. apply Z.ltb_ge. lia.
  - intros Hcap.
    assert ((0 <? max_chars) && (max_chars <? len text) = true) as Hcut.
    { apply andb_true_iff. split; apply Z.ltb_lt; lia. }
    destruct (validate_unit_too_long max_chars max_tokens tokens p text Hcut)
      as [Hparts Hreported].
    rewrite Hparts in Hpieces. injection Hpieces as <-.
    split; [by apply Hlog|].
    rewrite sliced_units_texts.
    assert (0 < Z.to_nat max_chars)%nat as Hsize by lia.
    split; [done|]. split; [by apply slices_concat|].
    intros k s Hs.
    destruct (slices_lengths _ _ _ _ Hsize Hs) as [Hlen Hfull].
    unfold len. split; [lia|]. intros Hk.
    rewrite <-(length_fmap fst), sliced_units_texts in Hk. rewrite (Hfull Hk). lia.
Qed.

Lemma validate_keeps_token_overflow_cuts_char_overflow_witness :
  [py "abc"; py "hello world"; py "de"] !! 1%nat = Some (py "hello world")
  ∧ ∃ log valid,
      validate_unit_boundaries [py "abc"; py "hello world"; py "de"] 20 1
        (Some (CallableTokens [py "abc"; py "hello "; py "world"; py "de"]))
      = (log, inr valid)
      ∧ valid.*1 = [py "abc"; py "hello world"; py "de"]
      ∧ ErrorUnitTooManyTokens (py "hello world") 2 1 ∈ log
      ∧ ∃ before after,
          valid = before ++ [(py "hello world", 2%nat)] ++ after
          ∧ before.*1 = [py "abc"] ∧ after.*1 = [py "de"].
Proof.
  split; [reflexivity|].
  destruct (validate_keeps_token_overflow_cuts_char_overflow
              [py "abc"; py "hello world"; py "de"] 20 1
              (Some (CallableTokens [py "abc"; py "hello "; py "world"; py "de"]))
              1 (py "hello world") eq_refl)
    as (log & valid & before & pieces & after & Hrun & Htexts & Hvalid & Hbefore
        & Hafter & Hreported & Hkept & _).
  exists log, valid. split; [exact Hrun|]. split; [exact Htexts|]. split.
  - apply (Hreported 2%nat); [reflexivity|lia].
  - exists before, after. split; [|split; [exact Hbefore|exact Hafter]].
    rewrite Hvalid. f_equal. f_equal. apply Hkept. unfold len. simpl. lia.
Defined.

(** ** Window assembly *)

Section Filter.

Context {A : Type} (P : A → Prop) `{!∀ x, Decision (P x)}.



End Filter.

Section Windows.

Local Open Scope nat_scope.

Variables (window_size window_overlap max_chars max_tokens : Z).

Local Abbreviation fits' := (fits window_size max_chars max_tokens).
Local Abbreviation grow' := (grow window_size max_chars max_tokens).
Local Abbreviation window_length' := (window_length window_size max_chars max_tokens).



Lemma grow_length count chars toks rest : grow' count chars toks rest ≤ length rest.
Proof.
  revert count chars toks. induction rest as [|u rest IH]; intros; simpl; [done|].
  destruct (fits' _ _ _ _); [|lia]. apply le_n_S, IH.
Qed.



Lemma window_length_nonempty units : units ≠ [] → 0 < window_length' units.
Proof. destruct units; [done|]. simpl. lia. Qed.

Lemma window_length_length units : window_length' units ≤ length units.
Proof.
  destruct units as [|u rest]; simpl; [done|]. apply le_n_S, grow_length.
Qed.





End Windows.

Section MergeLoop.

Local Open Scope nat_scope.

Variables (contents : list (str * nat)).
Variables (window_size window_overlap max_chars max_tokens : Z).

Local Abbreviation wl s :=
  (window_length window_size max_chars max_tokens (drop s contents)).
Local Abbreviation next s := (next_start window_size window_overlap s (wl s)).
Local Abbreviation loop fuel s :=
  (merge_loop fuel contents window_size window_overlap max_chars max_tokens s).

Lemma wl_positive s : s < length contents → 0 < wl s.
Proof.
  intros Hs. apply window_length_nonempty. intros Hnil.
  apply (f_equal length) in Hnil. rewrite length_drop in Hnil. simpl in Hnil. lia.
Qed.

Lemma wl_in_range s : s + wl s ≤ length contents ∨ wl s = 0.
Proof.
  pose proof (window_length_length window_size max_chars max_tokens (drop s contents))
    as Hlen.
  rewrite length_drop in Hlen. lia.
Qed.

(** Every start is further than the one before. *)
Lemma next_start_progress s : s < length contents → s < next s.
Proof.
  intros Hs. pose proof (wl_positive s Hs). unfold next_start.
  destruct (0 <? window_size)%Z; lia.
Qed.

Lemma loop_step fuel s :
  s < length contents →
  loop (S fuel) s
  = seq s (wl s) :: (if decide (length contents ≤ s + wl s) then []
                     else loop fuel (next s)).
Proof. intros Hs. simpl. by rewrite decide_False by lia. Qed.

Lemma loop_done fuel s : length contents ≤ s → loop fuel s = [].
Proof. intros Hs. destruct fuel; [done|]. simpl. by rewrite decide_True. Qed.

(** With as many rounds as there are units left the loop has ended by
    itself: more rounds change nothing. *)
Lemma loop_enough_fuel fuel fuel' s :
  length contents - s ≤ fuel → length contents - s ≤ fuel' →
  loop fuel s = loop fuel' s.
Proof.
  revert fuel' s. induction fuel as [|fuel IH]; intros fuel' s Hfuel Hfuel'.
  { rewrite !loop_done by lia. done. }
  destruct (decide (length contents ≤ s)) as [Hs|Hs].
  { rewrite !loop_done by lia. done. }
  destruct fuel' as [|fuel']; [lia|].
  rewrite !loop_step by lia. f_equal.
  destruct (decide (length contents ≤ s + wl s)); [done|].
  pose proof (next_start_progress s ltac:(lia)). apply IH; lia.
Qed.

(** Every window is the window of a start [s] inside the units. *)
Lemma loop_elem fuel s0 w :
  w ∈ loop fuel s0 → ∃ s, s0 ≤ s < length contents ∧ w = seq s (wl s).
Proof.
  revert s0. induction fuel as [|fuel IH]; intros s0; [by intros ?%elem_of_nil|].
  destruct (decide (length contents ≤ s0)) as [Hs|Hs].
  { rewrite loop_done by done. by intros ?%elem_of_nil. }
  rewrite loop_step by lia. intros [->|Hin]%elem_of_cons.
  - exists s0. split; [lia|done].
  - destruct (decide (length contents ≤ s0 + wl s0)); [by apply elem_of_nil in Hin|].
    destruct (IH _ Hin) as (s & Hrange & ->). exists s. split; [|done].
    pose proof (next_start_progress s0 ltac:(lia)). lia.
Qed.



End MergeLoop.

Section Overlap.

Local Open Scope nat_scope.



Variables (contents : list (str * nat)).
Variables (window_size window_overlap max_chars max_tokens : Z).
Hypothesis size_positive : (0 < window_size)%Z.
Hypothesis overlap_in_range : (0 ≤ window_overlap < window_size)%Z.

Local Abbreviation wl s :=
  (window_length window_size max_chars max_tokens (drop s contents)).
Local Abbreviation next s := (next_start window_size window_overlap s (wl s)).
Local Abbreviation loop fuel s :=
  (merge_loop fuel contents window_size window_overlap max_chars max_tokens s).
Local Abbreviation stride := (Z.to_nat (Z.max (window_size - window_overlap) 1)).

(** A window is not closed early: it holds [window_size] units or ends
    with the last unit. *)
Local Abbreviation complete w :=
  (length w = Z.to_nat window_size ∨ last w = Some (length contents - 1)).






End Overlap.




Section Units.

Local Open Scope nat_scope.

Lemma first_match_prefix separators text sep :
  first_match separators text = Some sep → sep ≠ [] ∧ sep `prefix_of` text.
Proof.
  unfold first_match. intros Hhead.
  assert (sep ∈ filter (λ sep, sep ≠ [] ∧ sep `prefix_of` text) separators) as Hin.
  { destruct (filter _ separators) as [|x xs]; [done|].
    injection Hhead as ->. by left. }
  by apply list_elem_of_filter in Hin as [? _].
Qed.

Lemma split_units_concat fuel separators text cur :
  length text < fuel →
  concat (split_units fuel separators text cur) = cur ++ text.
Proof.
  revert text cur. induction fuel as [|fuel IH]; intros text cur Hfuel; [lia|].
  destruct text as [|c rest]; simpl.
  { rewrite app_nil_r. by destruct cur; simpl; rewrite ?app_nil_r. }
  destruct (first_match separators (c :: rest)) as [sep|] eqn:Hmatch.
  - apply first_match_prefix in Hmatch as [Hsep [tail Htail]].
    simpl. rewrite IH.
    + rewrite Htail, drop_app_length. simpl. by rewrite <-app_assoc.
    + rewrite length_drop. simpl in *. destruct sep; [done|]. simpl. lia.
  - rewrite IH by (simpl in *; lia). by rewrite <-app_assoc.
Qed.

(** The units of a text, put together, are the text: every separator
    stays at the end of the unit before it. *)
Lemma split_by_separators_lossless text separators :
  concat (split_by_separators text separators) = text.
Proof. unfold split_by_separators. by rewrite split_units_concat by lia. Qed.

Variables (max_chars max_tokens : Z) (tokens : option Tokens).

(** The validated units, put together, are the units put together, and
    with [max_chars > 0] none of them is longer than [max_chars]. *)
Lemma validate_units_texts contents pos :
  ∃ valid,
    (validate_units max_chars max_tokens tokens pos contents).2 = inr valid
    ∧ concat valid.*1 = concat contents
    ∧ ((0 < max_chars)%Z → Forall (λ u, (len u.1 ≤ max_chars)%Z) valid).
Proof.
  revert pos. induction contents as [|text rest IH]; intros pos.
  { exists []. by repeat split. }
  destruct (IH (pos + length text)) as (others & Hrest & Hconcat & Hcap).
  destruct ((0 <? max_chars)%Z && (max_chars <? len text)%Z) eqn:Hcut.
  - destruct (validate_unit_too_long max_chars max_tokens tokens pos text Hcut)
      as [Hhead _].
    apply andb_true_iff in Hcut as [Hpos%Z.ltb_lt Hlong%Z.ltb_lt].
    assert (0 < Z.to_nat max_chars) as Hsize by lia.
    eexists. split; [|split].
    + simpl. rewrite bind_outcome, Hhead, bind_outcome, Hrest. done.
    + rewrite fmap_app, concat_app, sliced_units_texts, Hconcat.
      by rewrite slices_concat.
    + intros _. apply Forall_app. split; [|by apply Hcap].
      apply Forall_forall. intros u Hu.
      assert (u.1 ∈ slices (Z.to_nat max_chars) text) as Hin.
      { rewrite <-(sliced_units_texts tokens pos). by apply list_elem_of_fmap_2. }
      apply list_elem_of_lookup in Hin as [k Hk].
      destruct (slices_lengths _ _ _ _ Hsize Hk) as [Hlen _]. unfold len. lia.
  - pose proof (validate_unit_within max_chars max_tokens tokens pos text Hcut)
      as Hhead.
    eexists. split; [|split].
    + simpl. rewrite bind_outcome, Hhead, bind_outcome, Hrest. done.
    + rewrite fmap_app, concat_app, Hconcat. simpl. by rewrite app_nil_r.
    + intros Hpos. constructor; [|by apply Hcap]. simpl.
      apply andb_false_iff in Hcut as [Hoff%Z.ltb_ge|Hshort%Z.ltb_ge]; lia.
Qed.

End Units.

Section Chunks.

Local Open Scope nat_scope.

Lemma mapM_pure {A B} (f : A → M B) (g : A → B) (l : list A) :
  (∀ x, x ∈ l → f x = ([], inr (g x))) → mapM f l = ([], inr (g <$> l)).
Proof.
  induction l as [|x l IH]; intros Hf; [done|]. simpl.
  rewrite Hf by (by left). rewrite IH; [done|]. intros y Hy. apply Hf. by right.
Qed.

Lemma getitem_in_range {A} (l : list A) (i : nat) (x : A) :
  l !! i = Some x → getitem l i = ([], inr x).
Proof. unfold getitem. by intros ->. Qed.

(** The windows hold indices of units: reading them never fails. *)
Lemma windows_in_range (contents : list (str * nat))
    (window_size window_overlap max_chars max_tokens : Z) (w : list nat) (i : nat) :
  w ∈ make_merge_groups contents window_size window_overlap max_chars max_tokens →
  i ∈ w → i < length contents.
Proof.
  intros (s & Hs & ->)%loop_elem [Hlo Hhi]%elem_of_seq.
  destruct (wl_in_range contents window_size max_chars max_tokens s); lia.
Qed.

Lemma window_text_in_range (valid_contents : list (str * nat)) (window : list nat) :
  (∀ i, i ∈ window → i < length valid_contents) →
  window_text valid_contents window
  = ([], inr (join [space] ((λ i, (valid_contents !!! i).1) <$> window))).
Proof.
  intros Hrange. unfold window_text.
  rewrite (mapM_pure _ (λ i, (valid_contents !!! i).1)); [done|].
  intros i Hi. rewrite (getitem_in_range _ _ (valid_contents !!! i)); [done|].
  apply list_lookup_lookup_total_lt. by apply Hrange.
Qed.

Lemma zip_with_replicate {A B C} (f : A → B → C) (l : list A) (b : B) :
  zip_with f l (replicate (length l) b) = (λ a, f a b) <$> l.
Proof. induction l as [|a l IH]; simpl; [done|]. by rewrite IH. Qed.

(** A document with content, whose splitter function returns units, is
    turned into one chunk per window: the texts of the units of the window
    joined with a space, under the metadata of the document. With
    [max_tokens] set this needs a tokenizer. *)
Lemma split_document_chunks self splitter_function
    split_length split_overlap max_chars max_tokens document units :
  content document ≠ [] →
  (max_tokens ≠ 0%Z → self_tokenizer self ≠ None) →
  (splitter_function (content document)).2 = inr units →
  ∃ tokens valid_contents,
    (validate_unit_boundaries units max_chars max_tokens tokens).2 = inr valid_contents
    ∧ (split_document self splitter_function split_length split_overlap
         max_chars max_tokens document).2
      = inr ((λ window,
                {| content := join [space] ((λ i, (valid_contents !!! i).1) <$> window);
                   content_type := "text";
                   meta := meta document;
                   id_hash_keys := id_hash_keys document |})
             <$> make_merge_groups valid_contents split_length split_overlap
                   max_chars max_tokens).
Proof.
  intros Hcontent Htokenizer Hunits. unfold split_document.
  destruct (content document) as [|c text] eqn:Hdoc; [done|].
  assert (∃ tokens, (count_tokens self max_tokens (c :: text)).2 = inr tokens)
    as [tokens Htokens].
  { unfold count_tokens, truthy_int.
    destruct (Z.eqb_spec max_tokens 0) as [->|Hset]; simpl; [by eexists|].
    destruct (self_tokenizer self) as [[tokenize|tokenize]|] eqn:Htok;
      [by eexists..|]. by destruct (Htokenizer Hset). }
  destruct (validate_units_texts max_chars max_tokens tokens units 0)
    as (valid_contents & Hvalid & _).
  exists tokens, valid_contents. split; [done|].
  rewrite bind_outcome, Htokens, bind_outcome, Hunits, bind_outcome.
  unfold validate_unit_boundaries. rewrite Hvalid, bind_outcome.
  rewrite (mapM_pure _ (λ window,
             join [space] ((λ i, (valid_contents !!! i).1) <$> window))).
  - simpl. unfold fix_metadata. rewrite zip_with_replicate, <-list_fmap_compose. done.
  - intros w Hw. apply window_text_in_range. intros i Hi.
    by eapply windows_in_range.
Qed.

End Chunks.

(** What the join adds to the units of a window: one separator between
    two units. *)
Lemma join_length (sep : str) (parts : list str) :
  length (join sep parts)
  = (length (concat parts) + (length parts - 1) * length sep)%nat.
Proof.
  induction parts as [|p [|q parts] IH]; simpl in *.
  - done.
  - rewrite app_nil_r. lia.
  - rewrite !length_app in *. rewrite IH. lia.
Qed.

(** * Further properties of the splitter *)

(** ** Which parameters the validation accepts *)

Lemma bind_outcome_inr {A B} (m : M A) (k : A → M B) (b : B) :
  (m ≫= k).2 = inr b ↔ ∃ a, m.2 = inr a ∧ (k a).2 = inr b.
Proof.
  rewrite bind_outcome. destruct m.2 as [e|a].
  - split; [done|]. by intros (a & ? & _).
  - split; [by exists a|]. by intros (a' & [= <-] & ?).
Qed.

Lemma not_in_SplitBy_separator : "separator"%string ∉ SplitBy.
Proof.
  unfold SplitBy. intros Hin.
  repeat (apply elem_of_cons in Hin as [Hin|Hin]; [discriminate|]).
  by apply elem_of_nil in Hin.
Qed.

(** The outcome and the log of a validation that gets past the checks of
    [split_by] and of the two lengths. *)
Lemma validate_accepted split_by split_regex split_separators
    split_length split_overlap max_chars max_tokens :
  split_by ∈ SplitBy → 0 ≤ split_length →
  (split_length ≠ 0 → 0 ≤ split_overlap < split_length) →
  _validate_split_params split_by split_regex split_separators
    split_length split_overlap max_chars max_tokens
  = ((if (split_length =? 0) && negb (truthy_int max_tokens)
      then [WarnSplitLengthZero max_chars] else [])
     ++ (if truthy_opt split_regex && negb (bool_decide (split_by = "regex"%string))
         then [WarnRegexIgnored split_by] else [])
     ++ (if truthy_opt split_separators then [WarnSeparatorsIgnored split_by] else []),
     inr tt).
Proof.
  intros Hin Hlen Hov. unfold _validate_split_params.
  rewrite (bool_decide_eq_true_2 _ Hin). simpl negb. rewrite when_false.
  replace (split_length <? 0) with false by (symmetry; apply Z.ltb_ge; lia).
  rewrite when_false.
  assert (bool_decide (split_by = "separator"%string) = false) as ->.
  { apply bool_decide_eq_false_2. intros ->. by apply not_in_SplitBy_separator. }
  rewrite andb_true_r.
  assert (when (truthy_int split_length)
            (when (split_overlap <? 0) (raise (ValueError msg_split_overlap)) ;;
             when (split_overlap >=? split_length)
               (raise (ValueError msg_overlap_length)))
          = mret tt) as Hlengths.
  { unfold truthy_int. destruct (Z.eqb_spec split_length 0) as [?|Hnz]; [done|].
    simpl. specialize (Hov Hnz).
    replace (split_overlap <? 0) with false by (symmetry; apply Z.ltb_ge; lia).
    rewrite when_false.
    replace (split_overlap >=? split_length) with false; [done|].
    symmetry. rewrite Z.geb_leb. apply Z.leb_gt. lia. }
  destruct ((split_length =? 0) && negb (truthy_int max_tokens)); simpl when.
  - rewrite bind_log. f_equal.
    + simpl. f_equal. rewrite Hlengths, bind_ret.
      destruct (truthy_opt split_regex && _), (truthy_opt split_separators); done.
    + rewrite Hlengths, bind_ret.
      destruct (truthy_opt split_regex && _), (truthy_opt split_separators); done.
  - rewrite bind_ret, Hlengths, bind_ret.
    destruct (truthy_opt split_regex && _), (truthy_opt split_separators); done.
Qed.

Lemma validate_accepted_inv split_by split_regex split_separators
    split_length split_overlap max_chars max_tokens :
  (_validate_split_params split_by split_regex split_separators
     split_length split_overlap max_chars max_tokens).2 = inr tt →
  split_by ∈ SplitBy
  ∧ 0 ≤ split_length
  ∧ (split_length ≠ 0 → 0 ≤ split_overlap < split_length).
Proof.
  intros Hok.
  destruct (decide (split_by ∈ SplitBy)) as [Hin|Hout]; last first.
  { by rewrite validate_unknown_split_by in Hok. }
  destruct (Z.lt_ge_cases split_length 0) as [Hneg|Hlen].
  { by rewrite validate_negative_length in Hok. }
  split; [done|]. split; [done|]. intros Hnz.
  destruct (decide (0 ≤ split_overlap < split_length)) as [?|Hbad]; [done|].
  destruct (validate_bad_overlap split_by split_regex split_separators
              split_length split_overlap max_chars max_tokens Hin)
    as [msg Hv]; [lia|lia|].
  by rewrite Hv in Hok.
Qed.

(** X1. The validation accepts the parameters exactly when [split_by] is
    one of the values of [SplitBy], [split_length] is not negative and, for a
    [split_length] other than zero, [0 <= split_overlap < split_length]. With
    [split_length = 0] any overlap passes, and neither [max_chars],
    [max_tokens], the regex nor the separators can make it fail. *)
Theorem validate_accepts_iff split_by split_regex split_separators
    split_length split_overlap max_chars max_tokens :
  (_validate_split_params split_by split_regex split_separators
     split_length split_overlap max_chars max_tokens).2 = inr tt
  ↔ split_by ∈ SplitBy
    ∧ 0 ≤ split_length
    ∧ (split_length ≠ 0 → 0 ≤ split_overlap < split_length).
Proof.
  split; [apply validate_accepted_inv|].
  intros (Hin & Hlen & Hov). by rewrite validate_accepted.
Qed.

(** X2. Whenever separators are given and the validation accepts the
    parameters, it warns that the separators will be ignored, whatever
    [split_by] is: the value it compares [split_by] with, "separator", is not
    one of [SplitBy]. *)
Theorem validate_warns_separators_ignored split_by split_regex sep seps
    split_length split_overlap max_chars max_tokens :
  (_validate_split_params split_by split_regex (Some (sep :: seps))
     split_length split_overlap max_chars max_tokens).2 = inr tt →
  WarnSeparatorsIgnored split_by
  ∈ (_validate_split_params split_by split_regex (Some (sep :: seps))
       split_length split_overlap max_chars max_tokens).1.
Proof.
  intros (Hin & Hlen & Hov)%validate_accepted_inv.
  rewrite validate_accepted by done. simpl.
  apply elem_of_app. right. apply elem_of_app. right. apply elem_of_cons. by left.
Qed.

Lemma validate_warns_separators_ignored_witness :
  (_validate_split_params "word" None (Some [py "--"]) 2 0 2000 0).2 = inr tt
  ∧ WarnSeparatorsIgnored "word"
    ∈ (_validate_split_params "word" None (Some [py "--"]) 2 0 2000 0).1.
Proof.
  split; [reflexivity|].
  apply (validate_warns_separators_ignored "word" None (py "--") [] 2 0 2000 0).
  reflexivity.
Defined.

(** ** The splitter function and the errors before the loop *)

Section GetSplitter.

Variable split_by_regex : str → str → list str.
Variable self : DocumentSplitter.

(** The values of [split_by] for which [get_splitter] has a branch. *)
Lemma get_splitter_outcome split_by split_regex split_separators :
  (∃ f, get_splitter split_by_regex self split_by split_regex split_separators
        = ([], inr f)
        ∧ (split_by = "regex"%string ∧ truthy_opt split_regex = true
           ∨ split_by = "separators"%string ∧ truthy_opt split_separators = true
           ∨ split_by ∈ ["page"; "paragraph"; "sentence"; "word"; "token"]%string))
  ∨ (∃ msg, get_splitter split_by_regex self split_by split_regex split_separators
            = ([], inl (ValueError msg))
            ∧ ¬ (split_by = "regex"%string ∧ truthy_opt split_regex = true
                 ∨ split_by = "separators"%string ∧ truthy_opt split_separators = true
                 ∨ split_by ∈ ["page"; "paragraph"; "sentence"; "word"; "token"]%string)).
Proof.
  unfold get_splitter.
  repeat case_bool_decide; subst.
  - destruct split_regex as [[|c pattern]|]; simpl.
    + right. eexists. split; [done|]. intros [[_ ?]|[[? _]|Hin]]; [done..|].
      repeat (apply elem_of_cons in Hin as [?|Hin]; [done|]). by apply elem_of_nil in Hin.
    + left. eexists. split; [done|]. by left.
    + right. eexists. split; [done|]. intros [[_ ?]|[[? _]|Hin]]; [done..|].
      repeat (apply elem_of_cons in Hin as [?|Hin]; [done|]). by apply elem_of_nil in Hin.
  - destruct split_separators as [[|sep seps]|]; simpl.
    + right. eexists. split; [done|]. intros [[? _]|[[_ ?]|Hin]]; [done..|].
      repeat (apply elem_of_cons in Hin as [?|Hin]; [done|]). by apply elem_of_nil in Hin.
    + left. eexists. split; [done|]. right. by left.
    + right. eexists. split; [done|]. intros [[? _]|[[_ ?]|Hin]]; [done..|].
      repeat (apply elem_of_cons in Hin as [?|Hin]; [done|]). by apply elem_of_nil in Hin.
  - left. eexists. split; [done|]. right. right. by left.
  - left. eexists. split; [done|]. right. right. right. by left.
  - left. eexists. split; [done|]. right. right. do 2 right. by left.
  - left. eexists. split; [done|]. right. right. do 3 right. by left.
  - left. destruct (self_tokenizer self) as [[tokenize|tokenize]|];
      (eexists; split; [done|]); right; right; do 4 right; by left.
  - right. eexists. split; [done|]. intros [[? _]|[[? _]|Hin]]; [done..|].
    repeat (apply elem_of_cons in Hin as [?|Hin]; [done|]). by apply elem_of_nil in Hin.
Qed.

End GetSplitter.

(** X3. [get_splitter] returns a function exactly for [split_by="regex"]
    with a regex, [split_by="separators"] with separators, and
    [split_by] "page", "paragraph", "sentence", "word" or "token"; for
    anything else, "character" included, it raises, and what it raises is a
    [ValueError]. It logs nothing. *)
Theorem get_splitter_succeeds_iff split_by_regex self split_by split_regex
    split_separators :
  ((∃ f, (get_splitter split_by_regex self split_by split_regex split_separators).2
         = inr f)
   ↔ (split_by = "regex"%string ∧ truthy_opt split_regex = true
      ∨ split_by = "separators"%string ∧ truthy_opt split_separators = true
      ∨ split_by ∈ ["page"; "paragraph"; "sentence"; "word"; "token"]%string))
  ∧ (∀ e, (get_splitter split_by_regex self split_by split_regex split_separators).2
          = inl e → ∃ msg, e = ValueError msg)
  ∧ (get_splitter split_by_regex self split_by split_regex split_separators).1 = [].
Proof.
  destruct (get_splitter_outcome split_by_regex self split_by split_regex split_separators)
    as [(f & -> & Hcase)|(msg & -> & Hcase)]; simpl.
  - split; [|split; [done|done]]. split; [done|]. intros _. by exists f.
  - split; [|split; [|done]].
    + split; [by intros [f ?]|done].
    + intros e [= <-]. by exists msg.
Qed.

Section SplitPrelude.

Variable split_by_regex : str → str → list str.
Variable self : DocumentSplitter.
Variables (documents : list Document).
Variables (split_by : option string) (split_regex : option str).
Variables (split_separators : option (list str)).
Variables (split_length split_overlap max_chars max_tokens : option Z).
Variables (add_page_number progress_bar : option bool).

Local Abbreviation by' := (default (self_split_by self) split_by).
Local Abbreviation regex' := (from_option Some (self_split_regex self) split_regex).
Local Abbreviation separators' :=
  (from_option Some (self_split_separators self) split_separators).
Local Abbreviation validation :=
  (_validate_split_params by' regex' separators'
     (default (self_split_length self) split_length)
     (default (self_split_overlap self) split_overlap)
     (default (self_max_chars self) max_chars)
     (default (self_max_tokens self) max_tokens)).
Local Abbreviation any_not_text' :=
  (existsb (λ document, negb (bool_decide (content_type document = "text"%string)))
     documents).
Local Abbreviation no_tokenizer :=
  (bool_decide (by' = "token"%string) && negb (bool_decide (is_Some (self_tokenizer self)))).
Local Abbreviation the_split :=
  (split split_by_regex self documents split_by split_regex split_separators
     split_length split_overlap max_chars max_tokens add_page_number progress_bar).

(** [split] step by step, up to the loop. *)
Lemma split_outcome_cases :
  (∃ msg, validation.2 = inl (ValueError msg) ∧ the_split.2 = inl (ValueError msg))
  ∨ (validation.2 = inr tt ∧ any_not_text' = true
     ∧ the_split.2 = inl (ValueError msg_not_text))
  ∨ (validation.2 = inr tt ∧ any_not_text' = false ∧ no_tokenizer = true
     ∧ the_split.2 = inl (ValueError msg_no_tokenizer))
  ∨ (validation.2 = inr tt ∧ any_not_text' = false ∧ no_tokenizer = false
     ∧ ∃ msg, (get_splitter split_by_regex self by' regex' separators').2
              = inl (ValueError msg)
              ∧ the_split.2 = inl (ValueError msg))
  ∨ (validation.2 = inr tt ∧ any_not_text' = false ∧ no_tokenizer = false
     ∧ ∃ f, (get_splitter split_by_regex self by' regex' separators').2 = inr f
            ∧ the_split.2
              = (for_each
                   (split_document self f
                      (default (self_split_length self) split_length)
                      (default (self_split_overlap self) split_overlap)
                      (default (self_max_chars self) max_chars)
                      (default (self_max_tokens self) max_tokens))
                   documents).2).
Proof.
  unfold split. rewrite bind_outcome.
  destruct validation as [l [e|[]]] eqn:Hv; simpl.
  { destruct (validate_raises_value_error _ _ _ _ _ _ _ _ _ Hv) as [msg ->].
    left. by exists msg. }
  right. rewrite bind_outcome. destruct any_not_text'; simpl.
  { left. done. }
  right. rewrite bind_outcome. destruct no_tokenizer; simpl.
  { left. done. }
  right. rewrite bind_outcome.
  destruct (get_splitter_outcome split_by_regex self by' regex' separators')
    as [(f & -> & _)|(msg & -> & _)]; simpl.
  - right. repeat split; [done..|]. by exists f.
  - left. repeat split; [done..|]. by exists msg.
Qed.

(** An error of [get_splitter], or a missing tokenizer for
    [split_by="token"], makes [split] raise a [ValueError], whatever comes
    before. *)
Lemma split_fails_before_loop :
  no_tokenizer = true
  ∨ (∃ msg, (get_splitter split_by_regex self by' regex' separators').2
            = inl (ValueError msg)) →
  ∃ msg, the_split.2 = inl (ValueError msg).
Proof.
  intros Hfail.
  destruct split_outcome_cases
    as [(msg & _ & ?)|[(_ & _ & ?)|[(_ & _ & _ & ?)|[(_ & _ & _ & msg & _ & ?)
       |(_ & _ & Htok & f & Hf & _)]]]]; eauto.
  destruct Hfail as [Hfail|[msg Hfail]]; congruence.
Qed.

End SplitPrelude.

Lemma get_splitter_character split_by_regex self split_regex split_separators :
  get_splitter split_by_regex self "character" split_regex split_separators
  = ([], inl (ValueError msg_get_splitter)).
Proof. reflexivity. Qed.

Lemma get_splitter_no_regex split_by_regex self split_regex split_separators :
  truthy_opt split_regex = false →
  get_splitter split_by_regex self "regex" split_regex split_separators
  = ([], inl (ValueError msg_no_regex)).
Proof. by destruct split_regex as [[|c pattern]|]. Qed.

(** X4. [split_by="character"] passes the validation, but [get_splitter]
    has no branch for it: [split] raises a [ValueError] for every splitter
    and every list of documents, and when the lengths are valid and the
    documents are text it is the error of [get_splitter]. *)
Theorem split_by_character_always_fails split_by_regex self documents
    split_by split_regex split_separators split_length split_overlap
    max_chars max_tokens add_page_number progress_bar :
  default (self_split_by self) split_by = "character"%string →
  (∃ msg,
     (split split_by_regex self documents split_by split_regex split_separators
        split_length split_overlap max_chars max_tokens add_page_number progress_bar).2
     = inl (ValueError msg))
  ∧ (0 ≤ default (self_split_length self) split_length →
     (default (self_split_length self) split_length ≠ 0 →
      0 ≤ default (self_split_overlap self) split_overlap
        < default (self_split_length self) split_length) →
     Forall (λ d, content_type d = "text"%string) documents →
     (split split_by_regex self documents split_by split_regex split_separators
        split_length split_overlap max_chars max_tokens add_page_number progress_bar).2
     = inl (ValueError msg_get_splitter)).
Proof.
  intros Hby. split.
  - apply split_fails_before_loop. right. rewrite Hby.
    exists msg_get_splitter. by rewrite get_splitter_character.
  - intros Hlen Hov Htext.
    assert ((_validate_split_params
               (default (self_split_by self) split_by)
               (from_option Some (self_split_regex self) split_regex)
               (from_option Some (self_split_separators self) split_separators)
               (default (self_split_length self) split_length)
               (default (self_split_overlap self) split_overlap)
               (default (self_max_chars self) max_chars)
               (default (self_max_tokens self) max_tokens)).2 = inr tt) as Hvalid.
    { assert (default (self_split_by self) split_by ∈ SplitBy) as Hin.
      { rewrite Hby. unfold SplitBy. by left. }
      by rewrite (validate_accepted _ _ _ _ _ _ _ Hin Hlen Hov). }
    destruct (split_outcome_cases split_by_regex self documents split_by split_regex
                split_separators split_length split_overlap max_chars max_tokens
                add_page_number progress_bar)
      as [(msg & Hv & _)|[(_ & Hany & _)|[(_ & _ & Htok & _)
         |[(_ & _ & _ & msg & Hget & ->)|(_ & _ & _ & f & Hget & _)]]]].
    + congruence.
    + by rewrite (all_text _ Htext) in Hany.
    + by rewrite Hby in Htok.
    + rewrite Hby, get_splitter_character in Hget. by injection Hget as <-.
    + by rewrite Hby, get_splitter_character in Hget.
Qed.

Lemma split_by_character_always_fails_witness :
  default (self_split_by (sample_splitter "character" 2 0 2000)) None
  = "character"%string
  ∧ (sample_split (sample_splitter "character" 2 0 2000)
       [text_document (py "a b c") ∅]).2
    = inl (ValueError msg_get_splitter).
Proof.
  split; [reflexivity|].
  apply (split_by_character_always_fails no_regex (sample_splitter "character" 2 0 2000)
           [text_document (py "a b c") ∅] None None None None None None None None None
           eq_refl).
  - simpl. lia.
  - simpl. lia.
  - repeat constructor.
Defined.

(** X5. With [split_by="regex"] and no regex (none given and none on the
    splitter, or an empty one), [split] raises a [ValueError], whatever the
    documents are. *)
Theorem split_by_regex_needs_pattern split_by_regex self documents
    split_by split_regex split_separators split_length split_overlap
    max_chars max_tokens add_page_number progress_bar :
  default (self_split_by self) split_by = "regex"%string →
  truthy_opt (from_option Some (self_split_regex self) split_regex) = false →
  ∃ msg,
    (split split_by_regex self documents split_by split_regex split_separators
       split_length split_overlap max_chars max_tokens add_page_number progress_bar).2
    = inl (ValueError msg).
Proof.
  intros Hby Hregex. apply split_fails_before_loop. right. rewrite Hby.
  exists msg_no_regex. by rewrite get_splitter_no_regex.
Qed.

Lemma split_by_regex_needs_pattern_witness :
  default (self_split_by (sample_splitter "regex" 2 0 2000)) None = "regex"%string
  ∧ truthy_opt (from_option Some (self_split_regex (sample_splitter "regex" 2 0 2000))
                  (Some [])) = false
  ∧ ∃ msg,
      (split no_regex (sample_splitter "regex" 2 0 2000) [text_document (py "a b c") ∅]
         None (Some []) None None None None None None None).2
      = inl (ValueError msg).
Proof.
  split; [reflexivity|]. split; [reflexivity|].
  by apply (split_by_regex_needs_pattern no_regex (sample_splitter "regex" 2 0 2000)
              [text_document (py "a b c") ∅] None (Some []) None None None None None
              None None).
Defined.

(** X6. With [split_by="token"] and a splitter that has no tokenizer,
    [split] raises a [ValueError] before it looks at a document. *)
Theorem split_by_token_needs_tokenizer split_by_regex self documents
    split_by split_regex split_separators split_length split_overlap
    max_chars max_tokens add_page_number progress_bar :
  default (self_split_by self) split_by = "token"%string →
  self_tokenizer self = None →
  ∃ msg,
    (split split_by_regex self documents split_by split_regex split_separators
       split_length split_overlap max_chars max_tokens add_page_number progress_bar).2
    = inl (ValueError msg).
Proof.
  intros Hby Htok. apply split_fails_before_loop. left. rewrite Hby, Htok.
  rewrite bool_decide_eq_true_2 by done.
  rewrite bool_decide_eq_false_2; [done|]. by intros [? ?].
Qed.

Lemma split_by_token_needs_tokenizer_witness :
  default (self_split_by bare_splitter) (Some "token"%string) = "token"%string
  ∧ self_tokenizer bare_splitter = None
  ∧ ∃ msg,
      (split no_regex bare_splitter [text_document (py "a b c") ∅]
         (Some "token"%string) None None None None None None None None).2
      = inl (ValueError msg).
Proof.
  split; [reflexivity|]. split; [reflexivity|].
  by apply (split_by_token_needs_tokenizer no_regex bare_splitter
              [text_document (py "a b c") ∅] (Some "token"%string) None None None None
              None None None None).
Defined.

(** ** The loop over the documents, continued *)

Section ForEach.

Context {A B : Type}.
Variable body : A → M (list B).

Lemma for_each_outcome_cons (x : A) (xs : list A) :
  (for_each body (x :: xs)).2
  = match (body x).2 with
    | inl e => inl e
    | inr ys => match (for_each body xs).2 with
                | inl e => inl e
                | inr zs => inr (ys ++ zs)
                end
    end.
Proof.
  simpl. rewrite bind_outcome. destruct (body x).2; [done|].
  rewrite bind_outcome. by destruct (for_each body xs).2.
Qed.

(** The loop returns exactly when every iteration does, and then what the
    iterations return, in order. *)
Lemma for_each_outcome_app (xs1 xs2 : list A) (zs : list B) :
  (for_each body (xs1 ++ xs2)).2 = inr zs
  ↔ ∃ zs1 zs2, zs = zs1 ++ zs2
               ∧ (for_each body xs1).2 = inr zs1 ∧ (for_each body xs2).2 = inr zs2.
Proof.
  revert zs. induction xs1 as [|x xs1 IH]; intros zs.
  { simpl. split.
    - intros Hzs. by exists [], zs.
    - by intros (zs1 & zs2 & -> & [= <-] & ?). }
  simpl app. rewrite for_each_outcome_cons. split.
  - destruct (body x).2 as [e|ys] eqn:Hx; [done|].
    destruct (for_each body (xs1 ++ xs2)).2 as [e|zs'] eqn:Hrest; [done|].
    intros [= <-]. destruct (proj1 (IH zs') eq_refl) as (zs1 & zs2 & -> & H1 & H2).
    exists (ys ++ zs1), zs2. rewrite for_each_outcome_cons, Hx, H1, app_assoc. done.
  - intros (zs1 & zs2 & -> & H1 & H2). rewrite for_each_outcome_cons in H1.
    destruct (body x).2 as [e|ys]; [done|].
    destruct (for_each body xs1).2 as [e|zs1'] eqn:Hxs1; [done|].
    injection H1 as <-.
    rewrite (proj2 (IH (zs1' ++ zs2))); [by rewrite app_assoc|]. by exists zs1', zs2.
Qed.

(** What the loop returns comes from an iteration. *)
Lemma for_each_outcome_elem (xs : list A) (zs : list B) (z : B) :
  (for_each body xs).2 = inr zs → z ∈ zs →
  ∃ x ys, x ∈ xs ∧ (body x).2 = inr ys ∧ z ∈ ys.
Proof.
  revert zs. induction xs as [|x xs IH]; intros zs.
  { intros [= <-] Hz. by apply elem_of_nil in Hz. }
  rewrite for_each_outcome_cons.
  destruct (body x).2 as [e|ys] eqn:Hx; [done|].
  destruct (for_each body xs).2 as [e|zs'] eqn:Hxs; [done|].
  intros [= <-] [Hz|Hz]%elem_of_app.
  - exists x, ys. split; [by left|done].
  - destruct (IH zs' eq_refl Hz) as (x' & ys' & ? & ? & ?).
    exists x', ys'. split; [by right|done].
Qed.

(** The first iteration that raises ends the loop with its error, when
    the ones before it return. *)
Lemma for_each_raises (xs : list A) (e : Exc) :
  (∀ x, x ∈ xs → (body x).2 = inl e ∨ ∃ ys, (body x).2 = inr ys) →
  (∃ x, x ∈ xs ∧ (body x).2 = inl e) →
  (for_each body xs).2 = inl e.
Proof.
  induction xs as [|x xs IH]; intros Hall (x0 & Hin & Hx0).
  { by apply elem_of_nil in Hin. }
  rewrite for_each_outcome_cons.
  destruct (Hall x) as [Hx|[ys Hx]]; [by left|by rewrite Hx|].
  rewrite Hx. apply elem_of_cons in Hin as [->|Hin]; [congruence|].
  rewrite IH; [done| |by exists x0]. intros x' Hx'. apply Hall. by right.
Qed.

End ForEach.

Section SplitReturns.

Variable split_by_regex : str → str → list str.
Variable self : DocumentSplitter.
Variables (split_by : option string) (split_regex : option str).
Variables (split_separators : option (list str)).
Variables (split_length split_overlap max_chars max_tokens : option Z).
Variables (add_page_number progress_bar : option bool).

Local Abbreviation by' := (default (self_split_by self) split_by).
Local Abbreviation regex' := (from_option Some (self_split_regex self) split_regex).
Local Abbreviation separators' :=
  (from_option Some (self_split_separators self) split_separators).
Local Abbreviation validation :=
  (_validate_split_params by' regex' separators'
     (default (self_split_length self) split_length)
     (default (self_split_overlap self) split_overlap)
     (default (self_max_chars self) max_chars)
     (default (self_max_tokens self) max_tokens)).
Local Abbreviation any_not_text' documents :=
  (existsb (λ document, negb (bool_decide (content_type document = "text"%string)))
     documents).
Local Abbreviation no_tokenizer :=
  (bool_decide (by' = "token"%string) && negb (bool_decide (is_Some (self_tokenizer self)))).
Local Abbreviation the_split documents :=
  (split split_by_regex self documents split_by split_regex split_separators
     split_length split_overlap max_chars max_tokens add_page_number progress_bar).
Local Abbreviation body f :=
  (split_document self f
     (default (self_split_length self) split_length)
     (default (self_split_overlap self) split_overlap)
     (default (self_max_chars self) max_chars)
     (default (self_max_tokens self) max_tokens)).

(** When [split] returns: the parameters are valid, the documents are
    text, the tokenizer is there if needed, [get_splitter] gives a function
    and the loop returns. *)
Lemma split_returns_iff documents chunks :
  (the_split documents).2 = inr chunks
  ↔ validation.2 = inr tt ∧ any_not_text' documents = false ∧ no_tokenizer = false
    ∧ ∃ f, (get_splitter split_by_regex self by' regex' separators').2 = inr f
           ∧ (for_each (body f) documents).2 = inr chunks.
Proof.
  destruct (split_outcome_cases split_by_regex self documents split_by split_regex
              split_separators split_length split_overlap max_chars max_tokens
              add_page_number progress_bar)
    as [(msg & Hv & Hs)|[(_ & Hany & Hs)|[(_ & _ & Htok & Hs)
       |[(_ & _ & _ & msg & Hget & Hs)|(Hv & Hany & Htok & f & Hget & Hs)]]]];
    rewrite Hs.
  - split; [done|]. intros (Hv' & _). congruence.
  - split; [done|]. intros (_ & Hany' & _). congruence.
  - split; [done|]. intros (_ & _ & Htok' & _). congruence.
  - split; [done|]. intros (_ & _ & _ & f & Hget' & _). congruence.
  - split.
    + intros Hloop. repeat split; [done..|]. by exists f.
    + intros (_ & _ & _ & f' & Hget' & Hloop). rewrite Hget in Hget'.
      by injection Hget' as <-.
Qed.

End SplitReturns.

Lemma split_document_inherits self splitter_function split_length split_overlap
    max_chars max_tokens document chunks chunk :
  (split_document self splitter_function split_length split_overlap max_chars max_tokens
     document).2 = inr chunks →
  chunk ∈ chunks →
  content document ≠ []
  ∧ content_type chunk = "text"%string
  ∧ meta chunk = meta document
  ∧ id_hash_keys chunk = id_hash_keys document.
Proof.
  unfold split_document. destruct (content document) as [|c text].
  { rewrite bind_outcome. simpl. intros [= <-] Hin. by apply elem_of_nil in Hin. }
  intros (tokens & _ & Hrest)%bind_outcome_inr.
  apply bind_outcome_inr in Hrest as (split_content & _ & Hrest).
  apply bind_outcome_inr in Hrest as (valid_contents & _ & Hrest).
  apply bind_outcome_inr in Hrest as (split_documents & _ & Hrest).
  injection Hrest as <-.
  intros (text' & m & -> & _ & Hm)%elem_of_zip_with.
  apply fix_metadata_source in Hm as ->. done.
Qed.

(** X7. A splitter without a tokenizer that is asked to count tokens
    ([max_tokens] other than zero, [split_by] other than "token") is not
    turned down before the loop: with valid parameters and text documents,
    [split] fails at the first document with content, with the [TypeError]
    of calling [None], and returns no chunk. *)
Theorem split_max_tokens_needs_tokenizer split_by_regex self documents
    split_by split_regex split_separators split_length split_overlap
    max_chars max_tokens add_page_number progress_bar :
  self_tokenizer self = None →
  default (self_max_tokens self) max_tokens ≠ 0 →
  default (self_split_by self) split_by ≠ "token"%string →
  (_validate_split_params
     (default (self_split_by self) split_by)
     (from_option Some (self_split_regex self) split_regex)
     (from_option Some (self_split_separators self) split_separators)
     (default (self_split_length self) split_length)
     (default (self_split_overlap self) split_overlap)
     (default (self_max_chars self) max_chars)
     (default (self_max_tokens self) max_tokens)).2 = inr tt →
  Forall (λ d, content_type d = "text"%string) documents →
  (∃ f, (get_splitter split_by_regex self
           (default (self_split_by self) split_by)
           (from_option Some (self_split_regex self) split_regex)
           (from_option Some (self_split_separators self) split_separators)).2
        = inr f) →
  (∃ d, d ∈ documents ∧ content d ≠ []) →
  (split split_by_regex self documents split_by split_regex split_separators
     split_length split_overlap max_chars max_tokens add_page_number progress_bar).2
  = inl (TypeError msg_not_callable).
Proof.
  intros Htok Hmax Hby Hvalid Htext [f Hget] Hdoc.
  destruct (split_outcome_cases split_by_regex self documents split_by split_regex
              split_separators split_length split_overlap max_chars max_tokens
              add_page_number progress_bar)
    as [(msg & Hv & _)|[(_ & Hany & _)|[(_ & _ & Hno & _)
       |[(_ & _ & _ & msg & Hget' & _)|(_ & _ & _ & f' & Hget' & ->)]]]].
  - congruence.
  - by rewrite (all_text _ Htext) in Hany.
  - by rewrite (bool_decide_eq_false_2 _ Hby) in Hno.
  - congruence.
  - assert (∀ d, content d ≠ [] →
              (split_document self f'
                 (default (self_split_length self) split_length)
                 (default (self_split_overlap self) split_overlap)
                 (default (self_max_chars self) max_chars)
                 (default (self_max_tokens self) max_tokens) d).2
              = inl (TypeError msg_not_callable)) as Hraise.
    { intros d Hd. unfold split_document. destruct (content d) as [|c text]; [done|].
      rewrite bind_outcome. unfold count_tokens, truthy_int. rewrite Htok.
      by destruct (Z.eqb_spec (default (self_max_tokens self) max_tokens) 0). }
    apply for_each_raises.
    + intros d _. destruct (content d) as [|c text] eqn:Hd.
      * right. exists []. by rewrite split_document_empty.
      * left. apply Hraise. by rewrite Hd.
    + destruct Hdoc as (d & Hin & Hd). exists d. split; [done|]. by apply Hraise.
Qed.

Lemma split_max_tokens_needs_tokenizer_witness :
  self_tokenizer bare_splitter = None
  ∧ default (self_max_tokens bare_splitter) (Some 8) ≠ 0
  ∧ (∃ d, d ∈ [text_document [] ∅; text_document (py "a b c") ∅] ∧ content d ≠ [])
  ∧ split no_regex bare_splitter [text_document [] ∅; text_document (py "a b c") ∅]
      None None None None None None (Some 8) None None
    = ([WarnEmptyDocument (text_document [] ∅)], inl (TypeError msg_not_callable))
  ∧ (split no_regex bare_splitter [text_document [] ∅; text_document (py "a b c") ∅]
       None None None None None None (Some 8) None None).2
    = inl (TypeError msg_not_callable).
Proof.
  assert (∃ d, d ∈ [text_document [] ∅; text_document (py "a b c") ∅] ∧ content d ≠ [])
    as Hdoc.
  { exists (text_document (py "a b c") ∅). split; [|done]. right. by left. }
  split; [reflexivity|]. split; [done|]. split; [exact Hdoc|].
  split; [vm_compute; reflexivity|].
  apply (split_max_tokens_needs_tokenizer no_regex bare_splitter
           [text_document [] ∅; text_document (py "a b c") ∅]
           None None None None None None (Some 8) None None).
  - reflexivity.
  - done.
  - done.
  - reflexivity.
  - repeat constructor.
  - eexists. reflexivity.
  - exact Hdoc.
Defined.

(** X8. Every chunk that [split] returns is a text document that carries
    the metadata and the [id_hash_keys] of one of the documents it was given,
    a document with content: no chunk has metadata or keys of its own. *)
Theorem split_chunks_inherit split_by_regex self documents
    split_by split_regex split_separators split_length split_overlap
    max_chars max_tokens add_page_number progress_bar chunks chunk :
  (split split_by_regex self documents split_by split_regex split_separators
     split_length split_overlap max_chars max_tokens add_page_number progress_bar).2
  = inr chunks →
  chunk ∈ chunks →
  content_type chunk = "text"%string
  ∧ ∃ document, document ∈ documents
      ∧ content document ≠ []
      ∧ meta chunk = meta document
      ∧ id_hash_keys chunk = id_hash_keys document.
Proof.
  intros (_ & _ & _ & f & _ & Hloop)%split_returns_iff Hin.
  destruct (for_each_outcome_elem _ _ _ _ Hloop Hin) as (d & ys & Hd & Hbody & Hys).
  destruct (split_document_inherits _ _ _ _ _ _ _ _ _ Hbody Hys) as (? & ? & ? & ?).
  split; [done|]. by exists d.
Qed.

Lemma split_chunks_inherit_witness :
  (sample_split (sample_splitter "word" 1 0 2000)
     [text_document (py "ab cd") headlines_meta]).2
  = inr [text_document (py "ab ") headlines_meta; text_document (py "cd") headlines_meta]
  ∧ text_document (py "cd") headlines_meta
    ∈ [text_document (py "ab ") headlines_meta; text_document (py "cd") headlines_meta]
  ∧ content_type (text_document (py "cd") headlines_meta) = "text"%string
  ∧ ∃ document, document ∈ [text_document (py "ab cd") headlines_meta]
      ∧ content document ≠ []
      ∧ meta (text_document (py "cd") headlines_meta) = meta document
      ∧ id_hash_keys (text_document (py "cd") headlines_meta) = id_hash_keys document.
Proof.
  assert ((sample_split (sample_splitter "word" 1 0 2000)
             [text_document (py "ab cd") headlines_meta]).2
          = inr [text_document (py "ab ") headlines_meta;
                 text_document (py "cd") headlines_meta]) as Hrun.
  { vm_compute. reflexivity. }
  assert (text_document (py "cd") headlines_meta
          ∈ [text_document (py "ab ") headlines_meta;
             text_document (py "cd") headlines_meta]) as Hin.
  { right. by left. }
  split; [exact Hrun|]. split; [exact Hin|].
  exact (split_chunks_inherit no_regex (sample_splitter "word" 1 0 2000)
           [text_document (py "ab cd") headlines_meta]
           None None None None None None None None None _ _ Hrun Hin).
Defined.

(** X9. [split] treats the documents one after the other and
    independently: it returns for two lists put together exactly when it
    returns for each of them, and then with the chunks of the first list
    followed by the chunks of the second. *)
Theorem split_app split_by_regex self documents1 documents2
    split_by split_regex split_separators split_length split_overlap
    max_chars max_tokens add_page_number progress_bar chunks :
  (split split_by_regex self (documents1 ++ documents2) split_by split_regex
     split_separators split_length split_overlap max_chars max_tokens
     add_page_number progress_bar).2 = inr chunks
  ↔ ∃ chunks1 chunks2,
      chunks = chunks1 ++ chunks2
      ∧ (split split_by_regex self documents1 split_by split_regex split_separators
           split_length split_overlap max_chars max_tokens add_page_number
           progress_bar).2 = inr chunks1
      ∧ (split split_by_regex self documents2 split_by split_regex split_separators
           split_length split_overlap max_chars max_tokens add_page_number
           progress_bar).2 = inr chunks2.
Proof.
  split.
  - intros (Hv & Hany & Htok & f & Hget & Hloop)%split_returns_iff.
    rewrite existsb_app in Hany. apply orb_false_iff in Hany as [Hany1 Hany2].
    apply for_each_outcome_app in Hloop as (chunks1 & chunks2 & -> & H1 & H2).
    exists chunks1, chunks2. split; [done|].
    split; apply split_returns_iff; repeat split; try done; by exists f.
  - intros (chunks1 & chunks2 & -> & H1 & H2).
    apply split_returns_iff in H1 as (Hv & Hany1 & Htok & f & Hget & Hloop1).
    apply split_returns_iff in H2 as (_ & Hany2 & _ & f' & Hget' & Hloop2).
    rewrite Hget in Hget'. injection Hget' as <-.
    apply split_returns_iff. repeat split; [done| |done|].
    + by rewrite existsb_app, Hany1, Hany2.
    + exists f. split; [done|]. apply for_each_outcome_app. by exists chunks1, chunks2.
Qed.

Lemma validate_outcome_split_by by1 by2 split_regex split_separators
    split_length split_overlap max_chars max_tokens :
  by1 ∈ SplitBy → by2 ∈ SplitBy →
  (_validate_split_params by1 split_regex split_separators
     split_length split_overlap max_chars max_tokens).2
  = (_validate_split_params by2 split_regex split_separators
       split_length split_overlap max_chars max_tokens).2.
Proof.
  intros H1 H2. unfold _validate_split_params.
  rewrite (bool_decide_eq_true_2 _ H1), (bool_decide_eq_true_2 _ H2).
  unfold when, raise, log.
  repeat match goal with
         | |- context [if ?b then _ else _] => destruct b
         end; reflexivity.
Qed.

(** X10. With the tokenizer that [tokenizer_model="word"] installs,
    splitting by "token" is splitting by "word": [split] has the same outcome
    for both, chunks or error, on every list of documents. *)
Theorem split_by_token_word_tokenizer split_by_regex self documents
    split_regex split_separators split_length split_overlap
    max_chars max_tokens add_page_number progress_bar :
  self_tokenizer self = Some word_tokenizer →
  (split split_by_regex self documents (Some "token"%string) split_regex
     split_separators split_length split_overlap max_chars max_tokens
     add_page_number progress_bar).2
  = (split split_by_regex self documents (Some "word"%string) split_regex
       split_separators split_length split_overlap max_chars max_tokens
       add_page_number progress_bar).2.
Proof.
  intros Htok. unfold split. simpl default. rewrite !bind_outcome.
  rewrite (validate_outcome_split_by "token" "word") by (unfold SplitBy; set_solver).
  destruct (_validate_split_params "word" _ _ _ _ _ _).2 as [e|[]]; [done|].
  unfold get_splitter. rewrite Htok. reflexivity.
Qed.

Lemma split_by_token_word_tokenizer_witness :
  self_tokenizer (sample_splitter "word" 2 0 2000) = Some word_tokenizer
  ∧ split no_regex (sample_splitter "word" 2 0 2000) [text_document (py "a b c") ∅]
      (Some "token"%string) None None None None None None None None
    = ([], inr [text_document (py "a  b ") ∅; text_document (py "c") ∅])
  ∧ (split no_regex (sample_splitter "word" 2 0 2000) [text_document (py "a b c") ∅]
       (Some "token"%string) None None None None None None None None).2
    = (split no_regex (sample_splitter "word" 2 0 2000) [text_document (py "a b c") ∅]
         (Some "word"%string) None None None None None None None None).2.
Proof.
  split; [reflexivity|]. split; [vm_compute; reflexivity|].
  by apply (split_by_token_word_tokenizer no_regex (sample_splitter "word" 2 0 2000)
              [text_document (py "a b c") ∅] None None None None None None None None).
Defined.

(** ** Construction and batches *)

Section Construction.

Variable FeatureExtractor : string → str → list str.
Variable load_sentence_tokenizer : string → option string → str → list str.

Lemma tokenizer_setter_truthy tokenizer_model :
  truthy_model tokenizer_model = true →
  ∃ tokenizer, tokenizer_setter FeatureExtractor tokenizer_model
               = ([], inr (Some tokenizer)).
Proof.
  intros Htruthy. unfold tokenizer_setter. rewrite Htruthy. simpl.
  destruct tokenizer_model as [[name|path|tokenize|tokenize]|]; [|by eexists..|done].
  case_bool_decide; by eexists.
Qed.

Lemma tokenizer_setter_falsy tokenizer_model :
  truthy_model tokenizer_model = false →
  tokenizer_setter FeatureExtractor tokenizer_model
  = ([], inl (ValueError msg_tokenizer_none)).
Proof. intros Hfalsy. unfold tokenizer_setter. by rewrite Hfalsy. Qed.

Variables (split_by : string) (split_length : Z).
Variables (split_separators : option (list str)) (split_regex : option str).
Variables (split_overlap max_chars max_tokens : Z).
Variables (tokenizer_model : option TokenizerModel).
Variables (nltk_language : string) (nltk_folder : option string).
Variables (progress_bar add_page_number : bool).

Local Abbreviation construct :=
  (__init__ FeatureExtractor load_sentence_tokenizer split_by split_length
     split_separators split_regex split_overlap max_chars max_tokens tokenizer_model
     nltk_language nltk_folder progress_bar add_page_number).
Local Abbreviation validation :=
  (_validate_split_params split_by split_regex split_separators
     split_length split_overlap max_chars max_tokens).

(** The three ways the construction ends. *)
Lemma init_outcome_cases :
  (∃ msg, validation.2 = inl (ValueError msg) ∧ construct.2 = inl (ValueError msg))
  ∨ (validation.2 = inr tt ∧ truthy_model tokenizer_model = false ∧ max_tokens ≠ 0
     ∧ construct.2 = inl (ValueError msg_tokenizer_none))
  ∨ (validation.2 = inr tt ∧ (truthy_model tokenizer_model = true ∨ max_tokens = 0)
     ∧ ∃ self, construct.2 = inr self
         ∧ self_split_by self = split_by
         ∧ self_split_length self = split_length
         ∧ self_split_overlap self = split_overlap
         ∧ self_split_regex self = split_regex
         ∧ self_split_separators self = split_separators
         ∧ self_max_chars self = max_chars
         ∧ self_max_tokens self = max_tokens
         ∧ (truthy_model tokenizer_model = true → is_Some (self_tokenizer self))
         ∧ (truthy_model tokenizer_model = false → self_tokenizer self = None)).
Proof.
  unfold __init__. rewrite bind_outcome.
  destruct validation as [l [e|[]]] eqn:Hv; simpl.
  { destruct (validate_raises_value_error _ _ _ _ _ _ _ _ _ Hv) as [msg ->].
    left. by exists msg. }
  right. rewrite bind_outcome.
  destruct (truthy_model tokenizer_model) eqn:Hmodel; simpl.
  - right. split; [done|]. split; [by left|].
    destruct (tokenizer_setter_truthy _ Hmodel) as [tokenizer ->]. simpl.
    eexists. split; [done|]. simpl. repeat split; first [done|by eexists].
  - unfold truthy_int. destruct (Z.eqb_spec max_tokens 0) as [->|Hmax]; simpl.
    + right. split; [done|]. split; [by right|].
      eexists. split; [done|]. simpl. repeat split; done.
    + left. rewrite tokenizer_setter_falsy by done. done.
Qed.

End Construction.

(** X11. [DocumentSplitter(...)] is built exactly when the parameters pass
    the validation and there is a [tokenizer_model] or [max_tokens] is zero;
    otherwise the constructor raises, and what it raises is a [ValueError]. *)
Theorem init_succeeds_iff FeatureExtractor load_sentence_tokenizer
    split_by split_length split_separators split_regex split_overlap
    max_chars max_tokens tokenizer_model nltk_language nltk_folder
    progress_bar add_page_number :
  ((∃ self,
      (__init__ FeatureExtractor load_sentence_tokenizer split_by split_length
         split_separators split_regex split_overlap max_chars max_tokens
         tokenizer_model nltk_language nltk_folder progress_bar add_page_number).2
      = inr self)
   ↔ (_validate_split_params split_by split_regex split_separators
        split_length split_overlap max_chars max_tokens).2 = inr tt
     ∧ (truthy_model tokenizer_model = true ∨ max_tokens = 0))
  ∧ (∀ e,
       (__init__ FeatureExtractor load_sentence_tokenizer split_by split_length
          split_separators split_regex split_overlap max_chars max_tokens
          tokenizer_model nltk_language nltk_folder progress_bar add_page_number).2
       = inl e → ∃ msg, e = ValueError msg).
Proof.
  destruct (init_outcome_cases FeatureExtractor load_sentence_tokenizer
              split_by split_length split_separators split_regex split_overlap
              max_chars max_tokens tokenizer_model nltk_language nltk_folder
              progress_bar add_page_number)
    as [(msg & Hv & ->)|[(Hv & Hmodel & Hmax & ->)|(Hv & Hok & self & -> & _)]].
  - split.
    + split; [by intros [? ?]|]. intros [Hv' _]. congruence.
    + intros e [= <-]. by exists msg.
  - split.
    + split; [by intros [? ?]|]. intros [_ [?|?]]; congruence.
    + intros e [= <-]. by eexists.
  - split; [|done]. split; [done|]. intros _. by exists self.
Qed.

(** X12. A splitter that was built can be used as it is: its own
    parameters pass the validation [split] runs when nothing is overridden,
    and when its [max_tokens] is not zero it has a tokenizer, so that the
    call of the tokenizer in [split] finds one. *)
Theorem init_gives_valid_splitter FeatureExtractor load_sentence_tokenizer
    split_by split_length split_separators split_regex split_overlap
    max_chars max_tokens tokenizer_model nltk_language nltk_folder
    progress_bar add_page_number self :
  (__init__ FeatureExtractor load_sentence_tokenizer split_by split_length
     split_separators split_regex split_overlap max_chars max_tokens
     tokenizer_model nltk_language nltk_folder progress_bar add_page_number).2
  = inr self →
  (_validate_split_params
     (default (self_split_by self) None)
     (from_option Some (self_split_regex self) None)
     (from_option Some (self_split_separators self) None)
     (default (self_split_length self) None)
     (default (self_split_overlap self) None)
     (default (self_max_chars self) None)
     (default (self_max_tokens self) None)).2 = inr tt
  ∧ (self_max_tokens self ≠ 0 → is_Some (self_tokenizer self)).
Proof.
  intros Hself.
  destruct (init_outcome_cases FeatureExtractor load_sentence_tokenizer
              split_by split_length split_separators split_regex split_overlap
              max_chars max_tokens tokenizer_model nltk_language nltk_folder
              progress_bar add_page_number)
    as [(msg & _ & Hfail)|[(_ & _ & _ & Hfail)
       |(Hv & Hok & self' & Hself' & Hby & Hlen & Hov & Hre & Hsep & Hmc & Hmt
         & Hsome & Hnone)]]; [congruence..|].
  rewrite Hself in Hself'. injection Hself' as <-. simpl.
  rewrite Hby, Hlen, Hov, Hre, Hsep, Hmc, Hmt. split; [done|].
  intros Hmax. destruct Hok as [Hmodel|?]; [by apply Hsome|done].
Qed.

Lemma init_gives_valid_splitter_witness :
  (__init__ no_feature_extractor no_sentence_tokenizer "word" 2 None None 0 2000 8
     (Some (ModelName "word")) "english" None true true).2
  = inr {| self_split_by := "word"; self_split_length := 2; self_split_overlap := 0;
           self_split_regex := None; self_split_separators := None;
           self_max_chars := 2000; self_max_tokens := 8;
           self_progress_bar := true; self_add_page_number := true;
           self_sentence_tokenizer := no_sentence_tokenizer "english" None;
           self_tokenizer := Some word_tokenizer |}
  ∧ (_validate_split_params "word" None None 2 0 2000 8).2 = inr tt
  ∧ ((8 ≠ 0) → is_Some (Some word_tokenizer)).
Proof.
  assert ((__init__ no_feature_extractor no_sentence_tokenizer "word" 2 None None 0 2000 8
             (Some (ModelName "word")) "english" None true true).2
          = inr {| self_split_by := "word"; self_split_length := 2;
                   self_split_overlap := 0;
                   self_split_regex := None; self_split_separators := None;
                   self_max_chars := 2000; self_max_tokens := 8;
                   self_progress_bar := true; self_add_page_number := true;
                   self_sentence_tokenizer := no_sentence_tokenizer "english" None;
                   self_tokenizer := Some word_tokenizer |}) as Hbuilt by reflexivity.
  split; [exact Hbuilt|].
  exact (init_gives_valid_splitter _ _ _ _ _ _ _ _ _ _ _ _ _ _ _ Hbuilt).
Defined.

Lemma mapM_outcome_inr {A B} (f : A → M B) (l : list A) (bs : list B) :
  (mapM f l).2 = inr bs ↔ Forall2 (λ a b, (f a).2 = inr b) l bs.
Proof.
  revert bs. induction l as [|a l IH]; intros bs; simpl.
  { split; [intros [= <-]; constructor|]. by intros ->%Forall2_nil_inv_l. }
  rewrite bind_outcome_inr. split.
  - intros (b & Hb & (bs' & Hbs' & [= <-])%bind_outcome_inr).
    constructor; [done|]. by apply IH.
  - intros (b & bs' & Hb & Hbs' & ->)%Forall2_cons_inv_l.
    exists b. split; [done|]. apply bind_outcome_inr. exists bs'. split; [|done].
    by apply IH.
Qed.

Lemma run_outcome split_by_regex self documents split_by split_regex
    split_separators split_length split_overlap max_chars max_tokens
    add_page_number progress_bar out :
  (run split_by_regex self documents split_by split_regex split_separators
     split_length split_overlap max_chars max_tokens add_page_number progress_bar).2
  = inr out
  ↔ (split split_by_regex self documents split_by split_regex split_separators
       split_length split_overlap max_chars max_tokens add_page_number
       (Some progress_bar)).2 = inr out.1
    ∧ out.2 = "output_1"%string.
Proof.
  unfold run. rewrite bind_outcome_inr. split.
  - by intros (chunks & Hsplit & [= <-]).
  - intros [Hsplit Hedge]. exists out.1. split; [done|]. simpl. f_equal.
    destruct out; simpl in *. by subst.
Qed.

(** X13. [run_batch] returns exactly when [split] returns for every list
    of the batch, called with the given parameters and with the separators
    and [max_tokens] of the splitter; it then gives one list of chunks per
    list of documents, in the order of the batch, on the edge "output_1". One
    list that makes [split] raise makes the whole batch raise. *)
Theorem run_batch_returns_iff split_by_regex self (documents : list (list Document))
    split_by split_regex split_length split_overlap split_max_chars
    add_page_number progress_bar (results : list (list Document)) (edge : string) :
  (run_batch split_by_regex self documents split_by split_regex split_length
     split_overlap split_max_chars add_page_number progress_bar).2
  = inr (results, edge)
  ↔ edge = "output_1"%string
    ∧ Forall2
        (λ docs chunks,
           (split split_by_regex self docs split_by split_regex None split_length
              split_overlap split_max_chars None add_page_number (Some false)).2
           = inr chunks)
        documents results.
Proof.
  unfold run_batch. rewrite bind_outcome_inr. split.
  - intros (outs & Houts & [= <- <-]). split; [done|].
    apply mapM_outcome_inr in Houts. eapply Forall2_impl; [exact Houts|].
    intros docs chunks (out & Hrun & [= <-])%bind_outcome_inr.
    by apply run_outcome in Hrun as [? _].
  - intros [-> Hall]. exists results. split; [|done].
    apply mapM_outcome_inr. eapply Forall2_impl; [exact Hall|].
    intros docs chunks Hsplit. apply bind_outcome_inr.
    exists (chunks, "output_1"%string). split; [|done]. by apply run_outcome.
Qed.

Lemma for_each_all_skip {A B} (body : A → M (list B)) (r : A → LogRecord) (xs : list A) :
  (∀ x, x ∈ xs → body x = ([r x], inr [])) →
  for_each body xs = (r <$> xs, inr []).
Proof.
  induction xs as [|x xs IH]; intros Hskip; [done|].
  rewrite (for_each_skip body x xs (r x)) by (apply Hskip; by left).
  rewrite IH; [done|]. intros x' Hx'. apply Hskip. by right.
Qed.

(** X14. When every document of the list is a text document without
    content, and the parameters are such that [split] reaches its loop, it
    returns no chunk and raises nothing, not even with [max_tokens] set and
    no tokenizer; after the records of the validation its log has one warning
    per document, in the order of the list. *)
Theorem split_of_empty_documents split_by_regex self documents
    split_by split_regex split_separators split_length split_overlap
    max_chars max_tokens add_page_number progress_bar :
  Forall (λ d, content_type d = "text"%string ∧ content d = []) documents →
  (_validate_split_params
     (default (self_split_by self) split_by)
     (from_option Some (self_split_regex self) split_regex)
     (from_option Some (self_split_separators self) split_separators)
     (default (self_split_length self) split_length)
     (default (self_split_overlap self) split_overlap)
     (default (self_max_chars self) max_chars)
     (default (self_max_tokens self) max_tokens)).2 = inr tt →
  (default (self_split_by self) split_by = "token"%string →
   is_Some (self_tokenizer self)) →
  (∃ f, (get_splitter split_by_regex self
           (default (self_split_by self) split_by)
           (from_option Some (self_split_regex self) split_regex)
           (from_option Some (self_split_separators self) split_separators)).2
        = inr f) →
  split split_by_regex self documents split_by split_regex split_separators
    split_length split_overlap max_chars max_tokens add_page_number progress_bar
  = ((_validate_split_params
        (default (self_split_by self) split_by)
        (from_option Some (self_split_regex self) split_regex)
        (from_option Some (self_split_separators self) split_separators)
        (default (self_split_length self) split_length)
        (default (self_split_overlap self) split_overlap)
        (default (self_max_chars self) max_chars)
        (default (self_max_tokens self) max_tokens)).1
     ++ (WarnEmptyDocument <$> documents),
     inr []).
Proof.
  intros Hdocs Hvalid Htok [f Hget]. unfold split.
  destruct (_validate_split_params _ _ _ _ _ _ _) as [l [e|[]]]; [done|]. simpl.
  rewrite all_text by (eapply Forall_impl; [exact Hdocs|]; by intros d [? _]).
  assert (bool_decide (default (self_split_by self) split_by = "token"%string)
          && negb (bool_decide (is_Some (self_tokenizer self))) = false) as ->.
  { case_bool_decide as Hby; [|done]. by rewrite (bool_decide_eq_true_2 _ (Htok Hby)). }
  simpl.
  destruct (get_splitter_outcome split_by_regex self
              (default (self_split_by self) split_by)
              (from_option Some (self_split_regex self) split_regex)
              (from_option Some (self_split_separators self) split_separators))
    as [(f' & Hf' & _)|(msg & Hfail & _)]; [|by rewrite Hfail in Hget].
  rewrite Hf'. simpl.
  rewrite (for_each_all_skip _ WarnEmptyDocument).
  - done.
  - intros d Hd. apply split_document_empty.
    by apply (proj1 (Forall_forall _ _) Hdocs d Hd).
Qed.

Lemma split_of_empty_documents_witness :
  Forall (λ d, content_type d = "text"%string ∧ content d = [])
    [text_document [] ∅; text_document [] page_meta]
  ∧ split no_regex bare_splitter [text_document [] ∅; text_document [] page_meta]
      None None None None None None (Some 8) None None
    = ([WarnEmptyDocument (text_document [] ∅);
        WarnEmptyDocument (text_document [] page_meta)],
       inr []).
Proof.
  assert (Forall (λ d, content_type d = "text"%string ∧ content d = [])
            [text_document [] ∅; text_document [] page_meta]) as Hdocs.
  { repeat constructor. }
  split; [exact Hdocs|].
  apply (split_of_empty_documents no_regex bare_splitter
           [text_document [] ∅; text_document [] page_meta]
           None None None None None None (Some 8) None None Hdocs).
  - reflexivity.
  - done.
  - eexists. reflexivity.
Defined.

(** ** Instances of the equivalences above *)

Lemma validate_accepts_iff_witness :
  ("word"%string ∈ SplitBy ∧ 0 ≤ 0 ∧ (0 ≠ 0 → 0 ≤ -3 < 0))
  ∧ (_validate_split_params "word" None None 0 (-3) 2000 0).2 = inr tt.
Proof.
  assert ("word"%string ∈ SplitBy ∧ 0 ≤ 0 ∧ (0 ≠ 0 → 0 ≤ -3 < 0)) as Hok.
  { split; [|split; [lia|done]]. unfold SplitBy. do 2 right. by left. }
  split; [exact Hok|].
  exact (proj2 (validate_accepts_iff "word" None None 0 (-3) 2000 0) Hok).
Defined.

Lemma get_splitter_succeeds_iff_witness :
  ("separators"%string = "regex"%string ∧ truthy_opt (@None str) = true
   ∨ "separators"%string = "separators"%string ∧ truthy_opt (Some [py "--"]) = true
   ∨ "separators"%string ∈ ["page"; "paragraph"; "sentence"; "word"; "token"]%string)
  ∧ ∃ f, (get_splitter no_regex bare_splitter "separators" None (Some [py "--"])).2
         = inr f.
Proof.
  assert ("separators"%string = "regex"%string ∧ truthy_opt (@None str) = true
          ∨ "separators"%string = "separators"%string
            ∧ truthy_opt (Some [py "--"]) = true
          ∨ "separators"%string
            ∈ ["page"; "paragraph"; "sentence"; "word"; "token"]%string) as Hcase.
  { right. left. by split. }
  split; [exact Hcase|].
  exact (proj2 (proj1 (get_splitter_succeeds_iff no_regex bare_splitter "separators"
                         None (Some [py "--"]))) Hcase).
Defined.

Lemma split_app_witness :
  (∃ chunks1 chunks2,
     [text_document (py "a ") ∅; text_document (py "b") ∅; text_document (py "c") ∅]
     = chunks1 ++ chunks2
     ∧ (sample_split (sample_splitter "word" 1 0 2000) [text_document (py "a b") ∅]).2
       = inr chunks1
     ∧ (sample_split (sample_splitter "word" 1 0 2000) [text_document (py "c") ∅]).2
       = inr chunks2)
  ∧ (sample_split (sample_splitter "word" 1 0 2000)
       ([text_document (py "a b") ∅] ++ [text_document (py "c") ∅])).2
    = inr [text_document (py "a ") ∅; text_document (py "b") ∅;
           text_document (py "c") ∅].
Proof.
  assert (∃ chunks1 chunks2,
     [text_document (py "a ") ∅; text_document (py "b") ∅; text_document (py "c") ∅]
     = chunks1 ++ chunks2
     ∧ (sample_split (sample_splitter "word" 1 0 2000) [text_document (py "a b") ∅]).2
       = inr chunks1
     ∧ (sample_split (sample_splitter "word" 1 0 2000) [text_document (py "c") ∅]).2
       = inr chunks2) as Hparts.
  { exists [text_document (py "a ") ∅; text_document (py "b") ∅],
      [text_document (py "c") ∅].
    split; [reflexivity|]. split; vm_compute; reflexivity. }
  split; [exact Hparts|].
  exact (proj2 (split_app no_regex (sample_splitter "word" 1 0 2000)
                  [text_document (py "a b") ∅] [text_document (py "c") ∅]
                  None None None None None None None None None _) Hparts).
Defined.

Lemma init_succeeds_iff_witness :
  ((_validate_split_params "word" None None 2 0 2000 0).2 = inr tt
   ∧ (truthy_model None = true ∨ 0 = 0))
  ∧ ∃ self,
      (__init__ no_feature_extractor no_sentence_tokenizer "word" 2 None None 0 2000 0
         None "english" None true true).2 = inr self.
Proof.
  assert ((_validate_split_params "word" None None 2 0 2000 0).2 = inr tt
          ∧ (truthy_model None = true ∨ 0 = 0)) as Hok.
  { split; [reflexivity|by right]. }
  split; [exact Hok|].
  exact (proj2 (proj1 (init_succeeds_iff no_feature_extractor no_sentence_tokenizer
                         "word" 2 None None 0 2000 0 None "english" None true true))
           Hok).
Defined.

Lemma run_batch_returns_iff_witness :
  ("output_1"%string = "output_1"%string
   ∧ Forall2
       (λ docs chunks,
          (split no_regex (sample_splitter "word" 1 0 2000) docs None None None None
             None None None None (Some false)).2 = inr chunks)
       [[text_document (py "a b") ∅]; []]
       [[text_document (py "a ") ∅; text_document (py "b") ∅]; []])
  ∧ (run_batch no_regex (sample_splitter "word" 1 0 2000)
       [[text_document (py "a b") ∅]; []] None None None None None None None).2
    = inr ([[text_document (py "a ") ∅; text_document (py "b") ∅]; []],
           "output_1"%string).
Proof.
  assert ("output_1"%string = "output_1"%string
          ∧ Forall2
              (λ docs chunks,
                 (split no_regex (sample_splitter "word" 1 0 2000) docs None None None
                    None None None None None (Some false)).2 = inr chunks)
              [[text_document (py "a b") ∅]; []]
              [[text_document (py "a ") ∅; text_document (py "b") ∅]; []]) as Hall.
  { split; [reflexivity|]. repeat constructor; vm_compute; reflexivity. }
  split; [exact Hall|].
  exact (proj2 (run_batch_returns_iff no_regex (sample_splitter "word" 1 0 2000)
                  [[text_document (py "a b") ∅]; []] None None None None None None None
                  _ _) Hall).
Defined.
